(** * gh-check-github-ip-ranges: the range-classification engine

    A shallow embedding of [main.go] (type [IPChecker], [fetchGitHubMeta],
    [isBroadcastAddress], [CheckIP]) together with the parts of the Go
    standard library the code calls: [net.ParseIP], [net.IP.To4] and the
    routability predicates of [net.IP], [net.ParseCIDR], [net.IPNet.Contains],
    [http.Get] and [encoding/json] decoding into the struct [GitHubMeta].
    The library functions are those of Go 1.22, where package [net] parses
    addresses through [net/netip].

    Conventions.
    - A Go [byte] is a [Z] in [0, 256); a [net.IP] or [net.IPMask] is a
      [list Z]; a nil [net.IP] returned by [ParseIP] or [To4] is [None].
    - A Go [string] is a [string]; [s[i]] is read through [code].
    - A Go [error] is a value of [error] whose message [Error] is the text
      built by [fmt.Errorf].
    - The receiver [c *IPChecker] and the network are threaded explicitly:
      [CheckIP] maps a checker and a world to a result, a checker and a
      world.  The world holds the package variable [githubMetaURL], the
      answers of the remote end and the log of the GETs sent.
    - The body of a response is the JSON value the decoder reads off it,
      or the decoder's error when there is none. *)

From Stdlib Require Import ZArith List String Ascii Bool Lia DecimalString.
From Stdlib Require DecimalZ DecimalPos.
Import ListNotations.
Open Scope string_scope.
Open Scope list_scope.
Open Scope Z_scope.

(** ** Bytes, characters and slices *)

Definition code (c : ascii) : Z := Z.of_N (N_of_ascii c).

Definition isDigit (c : ascii) : bool := (48 <=? code c) && (code c <=? 57).

Definition isChar (c d : ascii) : bool := Ascii.eqb c d.

Definition strlen (s : string) : Z := Z.of_nat (String.length s).

Definition isEmpty (s : string) : bool :=
  match s with EmptyString => true | String _ _ => false end.

(** [update l i v] is the slice [l] after [l[i] = v] (indices of the code
    below are always in range; out of range the slice is returned as is). *)
Fixpoint update_nat (l : list Z) (i : nat) (v : Z) : list Z :=
  match l, i with
  | [], _ => []
  | _ :: t, O => v :: t
  | h :: t, S j => h :: update_nat t j v
  end.

Definition update (l : list Z) (i : Z) (v : Z) : list Z :=
  if i <? 0 then l else update_nat l (Z.to_nat i) v.

Definition at_ (l : list Z) (i : Z) : Z :=
  if i <? 0 then 0 else nth (Z.to_nat i) l 0.

Definition slice (l : list Z) (lo hi : Z) : list Z :=
  firstn (Z.to_nat (hi - lo)) (skipn (Z.to_nat lo) l).

Definition len (l : list Z) : Z := Z.of_nat (List.length l).

Fixpoint bytesEqual (a b : list Z) : bool :=
  match a, b with
  | [], [] => true
  | x :: a', y :: b' => (x =? y) && bytesEqual a' b'
  | _, _ => false
  end.

Fixpoint isZeros (l : list Z) : bool :=
  match l with
  | [] => true
  | x :: t => (x =? 0) && isZeros t
  end.

(** ** Package [net]: addresses *)

Module net.

Definition IP := list Z.
Definition IPMask := list Z.

Definition IPv4len : Z := 4.
Definition IPv6len : Z := 16.

Definition v4InV6Prefix : list Z := [0; 0; 0; 0; 0; 0; 0; 0; 0; 0; 255; 255].

(** [net.IPv4(a, b, c, d)]: the 16-byte form of an IPv4 address. *)
Definition IPv4 (a b c d : Z) : IP := v4InV6Prefix ++ [a; b; c; d].

Definition IPv4zero : IP := IPv4 0 0 0 0.
Definition IPv6unspecified : IP := repeat 0 16.
Definition IPv6loopback : IP := repeat 0 15 ++ [1].

(** [func (ip IP) To4() IP] *)
Definition To4 (ip : IP) : option IP :=
  if len ip =? IPv4len then Some ip
  else if (len ip =? IPv6len) && isZeros (slice ip 0 10)
          && (at_ ip 10 =? 255) && (at_ ip 11 =? 255)
       then Some (slice ip 12 16)
       else None.

(** [func (ip IP) Equal(x IP) bool] *)
Definition Equal (ip x : IP) : bool :=
  if len ip =? len x then bytesEqual ip x
  else if (len ip =? IPv4len) && (len x =? IPv6len) then
    bytesEqual (slice x 0 12) v4InV6Prefix && bytesEqual ip (slice x 12 16)
  else if (len ip =? IPv6len) && (len x =? IPv4len) then
    bytesEqual (slice ip 0 12) v4InV6Prefix && bytesEqual (slice ip 12 16) x
  else false.

(** [func (ip IP) IsPrivate() bool]: RFC 1918 for IPv4, RFC 4193 for IPv6. *)
Definition IsPrivate (ip : IP) : bool :=
  match To4 ip with
  | Some ip4 =>
      (at_ ip4 0 =? 10)
      || ((at_ ip4 0 =? 172) && (Z.land (at_ ip4 1) 240 =? 16))
      || ((at_ ip4 0 =? 192) && (at_ ip4 1 =? 168))
  | None => (len ip =? IPv6len) && (Z.land (at_ ip 0) 254 =? 252)
  end.

(** [func (ip IP) IsLoopback() bool] *)
Definition IsLoopback (ip : IP) : bool :=
  match To4 ip with
  | Some ip4 => at_ ip4 0 =? 127
  | None => Equal ip IPv6loopback
  end.

(** [func (ip IP) IsUnspecified() bool] *)
Definition IsUnspecified (ip : IP) : bool :=
  Equal ip IPv4zero || Equal ip IPv6unspecified.

(** [func (ip IP) IsMulticast() bool] *)
Definition IsMulticast (ip : IP) : bool :=
  match To4 ip with
  | Some ip4 => Z.land (at_ ip4 0) 240 =? 224
  | None => (len ip =? IPv6len) && (at_ ip 0 =? 255)
  end.

(** *** Parsing address literals ([net/netip.ParseAddr])

    [net.ParseIP] and [net.ParseCIDR] parse through [netip.ParseAddr]; the
    functions below follow its loops character by character. *)

(** A parsed [netip.Addr]: IPv4 or IPv6, its 16-byte form and its zone. *)
Record Addr := mkAddr { Is4 : bool; As16 : list Z; Zone : string }.

Definition BitLen (a : Addr) : Z := if Is4 a then 32 else 128.

(** [parseIPv4Fields]: the loop over [s[i]], with [prev] the character
    [s[i-1]] ([None] when [i == 0]).  The state is [val], [pos], [digLen]
    and the four [fields]. *)
Fixpoint parseIPv4Fields_loop (s : string) (prev : option ascii)
    (val pos digLen : Z) (fields : list Z) : option (list Z) :=
  match s with
  | EmptyString =>
      if pos <? 3 then None                   (* IPv4 address too short *)
      else Some (update fields 3 val)
  | String c rest =>
      if isDigit c then
        if (digLen =? 1) && (val =? 0) then None   (* octet with leading zero *)
        else
          let val' := val * 10 + (code c - 48) in
          if val' >? 255 then None                 (* value >255 *)
          else parseIPv4Fields_loop rest (Some c) val' pos (digLen + 1) fields
      else if isChar c "." then
        if match prev with None => true | Some p => isChar p "." end
           || isEmpty rest
        then None                       (* field must have at least one digit *)
        else if pos =? 3 then None      (* IPv4 address too long *)
        else parseIPv4Fields_loop rest (Some c) 0 (pos + 1) 0
               (update fields pos val)
      else None                         (* unexpected character *)
  end.

Definition parseIPv4Fields (s : string) : option (list Z) :=
  parseIPv4Fields_loop s None 0 0 0 [0; 0; 0; 0].

Definition parseIPv4 (s : string) : option Addr :=
  match parseIPv4Fields s with
  | Some f => Some (mkAddr true (v4InV6Prefix ++ f) "")
  | None => None
  end.

Definition hexDigit (c : ascii) : option Z :=
  let n := code c in
  if (48 <=? n) && (n <=? 57) then Some (n - 48)
  else if (97 <=? n) && (n <=? 102) then Some (n - 97 + 10)
  else if (65 <=? n) && (n <=? 70) then Some (n - 65 + 10)
  else None.

(** The inner loop of [parseIPv6] reading one hex group: it returns [off],
    [acc] and [s[off:]], or fails on a fifth digit. *)
Fixpoint hexGroup (s : string) (off acc : Z) : option (Z * Z * string) :=
  match s with
  | EmptyString => Some (off, acc, s)
  | String c rest =>
      match hexDigit c with
      | None => Some (off, acc, s)
      | Some d =>
          let acc' := Z.shiftl acc 4 + d in
          if off >? 3 then None             (* more than 4 digits in group *)
          else if acc' >? 65535 then None   (* value >= 2^16 *)
          else hexGroup rest (off + 1) acc'
      end
  end.

(** State of the main loop of [parseIPv6]. *)
Record v6state := mkV6 { rest6 : string; idx6 : Z; ip6 : list Z; ell6 : Z }.

(** The main loop [for i < 16 { ... }].  Every iteration that continues
    advances [i] by 2, so eight iterations exhaust it. *)
Fixpoint parseIPv6_loop (fuel : nat) (st : v6state) : option v6state :=
  match fuel with
  | O => Some st
  | S fuel' =>
    let '(mkV6 s i ip ellipsis) := st in
    if negb (i <? 16) then Some st else
    match hexGroup s 0 0 with
    | None => None
    | Some (off, acc, tail) =>
      if off =? 0 then None             (* field must have at least one digit *)
      else if match tail with String c _ => isChar c "." | _ => false end then
        (* trailing embedded IPv4 *)
        if (ellipsis <? 0) && negb (i =? 12) then None
        else if i + 4 >? 16 then None
        else
          match parseIPv4Fields s with
          | None => None
          | Some f =>
              let ip := update ip i (at_ f 0) in
              let ip := update ip (i + 1) (at_ f 1) in
              let ip := update ip (i + 2) (at_ f 2) in
              let ip := update ip (i + 3) (at_ f 3) in
              Some (mkV6 "" (i + 4) ip ellipsis)           (* break *)
          end
      else
        let ip := update ip i (Z.land (Z.shiftr acc 8) 255) in
        let ip := update ip (i + 1) (Z.land acc 255) in
        let i := i + 2 in
        match tail with
        | EmptyString => Some (mkV6 "" i ip ellipsis)        (* break *)
        | String c s1 =>
          if negb (isChar c ":") then None      (* want colon *)
          else
            match s1 with
            | EmptyString => None     (* colon must be followed by more *)
            | String c1 s2 =>
              if isChar c1 ":" then
                if ellipsis >=? 0 then None      (* multiple :: in address *)
                else
                  if isEmpty s2 then Some (mkV6 "" i ip i)  (* break *)
                  else parseIPv6_loop fuel' (mkV6 s2 i ip i)
              else parseIPv6_loop fuel' (mkV6 s1 i ip ellipsis)
            end
        end
    end
  end.

(** [for j := i - 1; j >= ellipsis; j-- { ip[j+n] = ip[j] }] *)
Fixpoint expand_loop (cnt : nat) (j n : Z) (ip : list Z) : list Z :=
  match cnt with
  | O => ip
  | S cnt' => expand_loop cnt' (j - 1) n (update ip (j + n) (at_ ip j))
  end.

(** [clear(ip[lo:hi])] *)
Fixpoint clear_loop (cnt : nat) (k : Z) (ip : list Z) : list Z :=
  match cnt with
  | O => ip
  | S cnt' => clear_loop cnt' (k + 1) (update ip k 0)
  end.

(** [s[:i], s[i+1:]] at the first occurrence of [sep], if any. *)
Fixpoint cut (sep : ascii) (s : string) : option (string * string) :=
  match s with
  | EmptyString => None
  | String c rest =>
      if isChar c sep then Some (EmptyString, rest)
      else match cut sep rest with
           | Some (a, b) => Some (String c a, b)
           | None => None
           end
  end.

Definition parseIPv6 (input : string) : option Addr :=
  match
    match cut "%" input with
    | Some (a, z) => if isEmpty z then None else Some (a, z)
    | None => Some (input, "")
    end
  with
  | None => None                        (* zone must be a non-empty string *)
  | Some (s, zone) =>
    let ip := repeat 0 16 in
    let start :=
      match s with
      | String c0 (String c1 s') =>
          if isChar c0 ":" && isChar c1 ":" then (s', 0) else (s, -1)
      | _ => (s, -1)
      end in
    let '(s, ellipsis) := start in
    if (ellipsis =? 0) && isEmpty s then Some (mkAddr false ip zone)
    else
      match parseIPv6_loop 8 (mkV6 s 0 ip ellipsis) with
      | None => None
      | Some (mkV6 s i ip ellipsis) =>
          if negb (isEmpty s) then None        (* trailing garbage *)
          else if i <? 16 then
            if ellipsis <? 0 then None         (* address string too short *)
            else
              let n := 16 - i in
              let ip := expand_loop (Z.to_nat (i - ellipsis)) (i - 1) n ip in
              let ip := clear_loop (Z.to_nat n) ellipsis ip in
              Some (mkAddr false ip zone)
          else if ellipsis >=? 0 then None     (* :: must expand to a field *)
          else Some (mkAddr false ip zone)
      end
  end.

(** [netip.ParseAddr]: dispatch on the first of ['.'], [':'] and ['%']. *)
Fixpoint ParseAddr_scan (whole s : string) : option Addr :=
  match s with
  | EmptyString => None                        (* unable to parse IP *)
  | String c rest =>
      if isChar c "." then parseIPv4 whole
      else if isChar c ":" then parseIPv6 whole
      else if isChar c "%" then None           (* missing IPv6 address *)
      else ParseAddr_scan whole rest
  end.

Definition ParseAddr (s : string) : option Addr := ParseAddr_scan s s.

(** [func ParseIP(s string) IP]: zones are refused, the result has 16 bytes. *)
Definition ParseIP (s : string) : option IP :=
  match ParseAddr s with
  | Some a => if isEmpty (Zone a) then Some (As16 a) else None
  | None => None
  end.

(** *** CIDR blocks *)

Record IPNet := mkIPNet { NetIP : IP; Mask : IPMask }.

(** [dtoi]: decimal to integer; it returns the number, the characters
    consumed and a success flag ([big = 0xFFFFFF] bounds the number). *)
Definition big : Z := 16777215.

Fixpoint dtoi_loop (s : string) (n i : Z) : Z * Z * bool :=
  match s with
  | EmptyString => if i =? 0 then (0, 0, false) else (n, i, true)
  | String c rest =>
      if isDigit c then
        let n' := n * 10 + (code c - 48) in
        if n' >=? big then (big, i, false)
        else dtoi_loop rest n' (i + 1)
      else if i =? 0 then (0, 0, false) else (n, i, true)
  end.

Definition dtoi (s : string) : Z * Z * bool := dtoi_loop s 0 0.

(** [func CIDRMask(ones, bits int) IPMask]: the loop filling [l] bytes. *)
Fixpoint CIDRMask_loop (l : nat) (n : Z) : list Z :=
  match l with
  | O => []
  | S l' =>
      if n >=? 8 then 255 :: CIDRMask_loop l' (n - 8)
      else Z.lxor 255 (Z.shiftr 255 n) :: CIDRMask_loop l' 0
  end.

Definition CIDRMask (ones bits : Z) : IPMask :=
  if negb (bits =? 8 * IPv4len) && negb (bits =? 8 * IPv6len) then []
  else if (ones <? 0) || (ones >? bits) then []
  else CIDRMask_loop (Z.to_nat (bits / 8)) ones.

Fixpoint allFF (l : list Z) : bool :=
  match l with
  | [] => true
  | x :: t => (x =? 255) && allFF t
  end.

Fixpoint andBytes (ip mask : list Z) : list Z :=
  match ip, mask with
  | x :: ip', m :: mask' => Z.land x m :: andBytes ip' mask'
  | _, _ => []
  end.

(** [func (ip IP) Mask(mask IPMask) IP]; the nil result is the empty slice. *)
Definition MaskIP (ip : IP) (mask : IPMask) : IP :=
  let mask :=
    if (len mask =? IPv6len) && (len ip =? IPv4len) && allFF (slice mask 0 12)
    then slice mask 12 16 else mask in
  let ip :=
    if (len mask =? IPv4len) && (len ip =? IPv6len)
       && bytesEqual (slice ip 0 12) v4InV6Prefix
    then slice ip 12 16 else ip in
  if negb (len ip =? len mask) then []
  else andBytes ip mask.

(** [func ParseCIDR(s string) (IP, *IPNet, error)] *)
Definition ParseCIDR (s : string) : option (IP * IPNet) :=
  match cut "/" s with
  | None => None
  | Some (addr, mask) =>
      match ParseAddr addr with
      | None => None
      | Some ipAddr =>
          if negb (isEmpty (Zone ipAddr)) then None
          else
            let '(n, i, ok) := dtoi mask in
            if negb ok || negb (i =? strlen mask) || (n <? 0)
               || (n >? BitLen ipAddr)
            then None
            else
              let m := CIDRMask n (BitLen ipAddr) in
              let addr16 := As16 ipAddr in
              Some (addr16, mkIPNet (MaskIP addr16 m) m)
      end
  end.

(** [networkNumberAndMask] *)
Definition networkNumberAndMask (n : IPNet) : option (IP * IPMask) :=
  match
    match To4 (NetIP n) with
    | Some ip => Some ip
    | None => if negb (len (NetIP n) =? IPv6len) then None else Some (NetIP n)
    end
  with
  | None => None
  | Some ip =>
      let m := Mask n in
      if len m =? IPv4len then
        if negb (len ip =? IPv4len) then None else Some (ip, m)
      else if len m =? IPv6len then
        if len ip =? IPv4len then Some (ip, slice m 12 16) else Some (ip, m)
      else None
  end.

Fixpoint sameNetwork (nn m ip : list Z) : bool :=
  match nn, m, ip with
  | a :: nn', b :: m', c :: ip' =>
      (Z.land a b =? Z.land c b) && sameNetwork nn' m' ip'
  | _, _, _ => true
  end.

(** [func (n *IPNet) Contains(ip IP) bool] *)
Definition Contains (n : IPNet) (ip : IP) : bool :=
  let '(nn, m) :=
    match networkNumberAndMask n with
    | Some p => p
    | None => ([], [])
    end in
  let ip := match To4 ip with Some x => x | None => ip end in
  if negb (len ip =? len nn) then false
  else sameNetwork nn m ip.

End net.

(** ** Errors ([fmt.Errorf])

    [fmt.Errorf] without [%w] builds an error that only has a message; with
    [%w] the error also wraps its operand.  Errors coming out of [net/http]
    and [encoding/json] are values with a message too. *)

Inductive error : Type :=
  | errorString (msg : string)
  | wrapError (msg : string) (err : error).

(** [func (e error) Error() string] *)
Definition Error (e : error) : string :=
  match e with
  | errorString msg => msg
  | wrapError msg _ => msg
  end.

(** [errors.Unwrap] *)
Definition Unwrap (e : error) : option error :=
  match e with
  | errorString _ => None
  | wrapError _ err => Some err
  end.

(** The verb [%d] on an [int]. *)
Definition itoa (n : Z) : string :=
  DecimalString.NilZero.string_of_int (Z.to_int n).

(** ** Package [encoding/json]: decoding into [GitHubMeta]

    The decoder first reads one complete JSON value off the stream (a
    syntax error surfaces before anything is stored), so a response body is
    either not JSON, with the decoder's error, or a JSON value. *)

#[local] Set Warnings "-register-all".
Inductive json : Type :=
  | JNull
  | JBool (b : bool)
  | JNumber (literal : string)
  | JString (s : string)
  | JArray (elems : list json)
  | JObject (members : list (string * json)).

(** [GitHubMeta] represents the response from GitHub's /meta API endpoint. *)
Record GitHubMeta := mkGitHubMeta {
  Hooks : list string;
  Web : list string;
  Api : list string;
  Git : list string;
  Packages : list string;
  Pages : list string;
  Importer : list string;
  Actions : list string;
  Dependabot : list string;
  ActionsIPv4 : list string
}.

(** [var meta GitHubMeta]: the zero value, every slice nil. *)
Definition zeroMeta : GitHubMeta := mkGitHubMeta [] [] [] [] [] [] [] [] [] [].

(** The struct fields with their [json:"..."] tags, in declaration order. *)
Inductive Field : Type :=
  | FHooks | FWeb | FApi | FGit | FPackages | FPages | FImporter
  | FActions | FDependabot | FActionsIPv4.

Definition allFields : list Field :=
  [FHooks; FWeb; FApi; FGit; FPackages; FPages; FImporter;
   FActions; FDependabot; FActionsIPv4].

Definition tag (f : Field) : string :=
  match f with
  | FHooks => "hooks" | FWeb => "web" | FApi => "api" | FGit => "git"
  | FPackages => "packages" | FPages => "pages" | FImporter => "importer"
  | FActions => "actions" | FDependabot => "dependabot"
  | FActionsIPv4 => "actions_ipv4"
  end.


Definition setField (f : Field) (v : list string) (m : GitHubMeta) : GitHubMeta :=
  let '(mkGitHubMeta h w a g pk pg im ac dp a4) := m in
  match f with
  | FHooks => mkGitHubMeta v w a g pk pg im ac dp a4
  | FWeb => mkGitHubMeta h v a g pk pg im ac dp a4
  | FApi => mkGitHubMeta h w v g pk pg im ac dp a4
  | FGit => mkGitHubMeta h w a v pk pg im ac dp a4
  | FPackages => mkGitHubMeta h w a g v pg im ac dp a4
  | FPages => mkGitHubMeta h w a g pk v im ac dp a4
  | FImporter => mkGitHubMeta h w a g pk pg v ac dp a4
  | FActions => mkGitHubMeta h w a g pk pg im v dp a4
  | FDependabot => mkGitHubMeta h w a g pk pg im ac v a4
  | FActionsIPv4 => mkGitHubMeta h w a g pk pg im ac dp v
  end.

Module jsondec.

Definition lower (c : ascii) : ascii :=
  if (65 <=? code c) && (code c <=? 90)
  then ascii_of_N (N_of_ascii c + 32) else c.

Fixpoint equalFold (a b : string) : bool :=
  match a, b with
  | EmptyString, EmptyString => true
  | String x a', String y b' => Ascii.eqb (lower x) (lower y) && equalFold a' b'
  | _, _ => false
  end.

(** The field a key of the object selects: the one whose tag is the key,
    else the first whose tag is the key up to the case of ASCII letters
    (the decoder's folding also maps two non-ASCII letters onto [k] and
    [s]; keys are taken here as ASCII). *)
Definition findField (key : string) : option Field :=
  match find (fun f => String.eqb (tag f) key) allFields with
  | Some f => Some f
  | None => find (fun f => equalFold (tag f) key) allFields
  end.

(** The word the decoder's type error uses for a JSON value. *)
Definition kind (v : json) : string :=
  match v with
  | JNull => "null" | JBool _ => "bool" | JNumber _ => "number"
  | JString _ => "string" | JArray _ => "array" | JObject _ => "object"
  end.

(** [*json.UnmarshalTypeError] *)
Definition typeError (v : json) (path ty : string) : error :=
  errorString
    (if isEmpty path
     then "json: cannot unmarshal " ++ kind v ++ " into Go value of type " ++ ty
     else "json: cannot unmarshal " ++ kind v ++ " into Go struct field GitHubMeta."
          ++ path ++ " of type " ++ ty)%string.

(** The decoder keeps the first type error it meets and goes on. *)
Definition saveError (saved : option error) (e : error) : option error :=
  match saved with
  | Some _ => saved
  | None => Some e
  end.

(** The elements of an array stored into a [[]string]: a string is stored,
    anything else but [null] is a type error and leaves the element empty.
    [null] leaves the element as it is: empty in a fresh slice, which is
    what the model takes (when an earlier member stored the same field,
    the decoder reuses that slice and the element keeps its old string). *)
Fixpoint elements (path : string) (l : list json) (saved : option error)
  : list string * option error :=
  match l with
  | [] => ([], saved)
  | v :: rest =>
      let '(x, saved) :=
        match v with
        | JString s => (s, saved)
        | JNull => ("", saved)
        | _ => ("", saveError saved (typeError v path "string"))
        end in
      let '(xs, saved) := elements path rest saved in
      (x :: xs, saved)
  end.

(** The members of the object, in order: unknown keys are skipped, a later
    member of the same field overwrites an earlier one. *)
Fixpoint members (l : list (string * json)) (m : GitHubMeta)
    (saved : option error) : GitHubMeta * option error :=
  match l with
  | [] => (m, saved)
  | (key, v) :: rest =>
      match findField key with
      | None => members rest m saved
      | Some f =>
          match v with
          | JNull => members rest (setField f [] m) saved
          | JArray elems =>
              let '(xs, saved) := elements (tag f) elems saved in
              members rest (setField f xs m) saved
          | _ => members rest m (saveError saved (typeError v (tag f) "[]string"))
          end
      end
  end.

(** [json.Unmarshal] of one value into [*GitHubMeta]. *)
Definition unmarshal (v : json) (m : GitHubMeta) : GitHubMeta * option error :=
  match v with
  | JNull => (m, None)
  | JObject l => members l m None
  | _ => (m, Some (typeError v "" "main.GitHubMeta"))
  end.

End jsondec.

(** ** Package [net/http]: the remote end *)

Inductive Body : Type :=
  | NotJSON (err : error)         (* what [Decode] reports on this body *)
  | JSONValue (v : json).

Inductive GetResult : Type :=
  | GetFailed (err : error)                       (* [err != nil] *)
  | GetResponse (StatusCode : Z) (body : Body).

Definition StatusOK : Z := 200.

(** The world outside the process: the package variable [githubMetaURL],
    what the remote end answers to the [n]-th request for a URL, and the
    requests sent so far. *)
Record World := mkWorld {
  githubMetaURL : string;
  remote : string -> nat -> GetResult;
  requests : list string
}.

(** [http.Get(url)] *)
Definition httpGet (url : string) (w : World) : GetResult * World :=
  (remote w url (List.length (requests w)),
   mkWorld (githubMetaURL w) (remote w) (requests w ++ [url])).

(** [json.NewDecoder(resp.Body).Decode(&meta)] *)
Definition Decode (b : Body) (m : GitHubMeta) : GitHubMeta * option error :=
  match b with
  | NotJSON err => (m, Some err)
  | JSONValue v => jsondec.unmarshal v m
  end.

(** ** [main.go] *)

(** [IPChecker] provides functionality to check IP addresses against
    GitHub's ranges; [meta] is the pointer field, nil until fetched. *)
Record IPChecker := mkIPChecker { meta : option GitHubMeta }.

(** [CheckResult] contains the result of an IP check. *)
Record CheckResult := mkCheckResult {
  IsGitHubIP : bool;
  FunctionalArea : string;
  Range : string
}.

(** [NewIPChecker] creates a new IPChecker instance. *)
Definition NewIPChecker : IPChecker := mkIPChecker None.

(** [fetchGitHubMeta] fetches the IP ranges from GitHub's API. *)
Definition fetchGitHubMeta (c : IPChecker) (w : World)
  : option error * IPChecker * World :=
  let '(r, w) := httpGet (githubMetaURL w) w in
  match r with
  | GetFailed err =>
      (Some (wrapError ("failed to fetch GitHub meta: " ++ Error err)%string err),
       c, w)
  | GetResponse StatusCode body =>
      if negb (StatusCode =? StatusOK) then
        (Some (errorString
                 ("GitHub API returned status code " ++ itoa StatusCode)%string),
         c, w)
      else
        let '(m, derr) := Decode body zeroMeta in
        match derr with
        | Some err =>
            (Some (wrapError
                     ("failed to decode GitHub meta response: " ++ Error err)%string
                     err), c, w)
        | None => (None, mkIPChecker (Some m), w)
        end
  end.

(** [isBroadcastAddress] checks if the IP is a broadcast address. *)
Fixpoint isBroadcastAddress (ip : net.IP) : bool :=
  match ip with
  | [] => true
  | b :: rest => if negb (b =? 255) then false else isBroadcastAddress rest
  end.

(** What a call of [CheckIP] does: it returns its pair of results, or it
    panics (on dereferencing a nil [c.meta]). *)
Inductive Outcome : Type :=
  | Return (result : option CheckResult) (err : option error)
  | Panic.

(** The table [ranges] built from [c.meta]. *)
Definition ranges (m : GitHubMeta) : list (string * list string) :=
  [ ("Hooks", Hooks m);
    ("Web", Web m);
    ("API", Api m);
    ("Git", Git m);
    ("Packages", Packages m);
    ("Pages", Pages m);
    ("Importer", Importer m);
    ("Actions", Actions m);
    ("Dependabot", Dependabot m);
    ("Actions IPv4", ActionsIPv4 m) ].

(** The inner loop [for _, cidr := range category.ranges]: [Some] is the
    early [return], [None] falls out of the loop. *)
Fixpoint scanCategory (ip : net.IP) (name : string) (cidrs : list string)
  : option CheckResult :=
  match cidrs with
  | [] => None
  | cidr :: rest =>
      match net.ParseCIDR cidr with
      | None => scanCategory ip name rest                  (* continue *)
      | Some (_, ipNet) =>
          if net.Contains ipNet ip
          then Some (mkCheckResult true name cidr)
          else scanCategory ip name rest
      end
  end.

(** The outer loop [for _, category := range ranges]. *)
Fixpoint scanRanges (ip : net.IP) (cats : list (string * list string))
  : option CheckResult :=
  match cats with
  | [] => None
  | (name, cidrs) :: rest =>
      match scanCategory ip name cidrs with
      | Some r => Some r
      | None => scanRanges ip rest
      end
  end.

(** [CheckIP] from the comment "Check each range category" on. *)
Definition checkRanges (ip : net.IP) (m : GitHubMeta) : Outcome :=
  match scanRanges ip (ranges m) with
  | Some r => Return (Some r) None
  | None => Return (Some (mkCheckResult false "" "")) None
  end.

(** [CheckIP] checks if the provided IP address is within GitHub's ranges. *)
Definition CheckIP (ipStr : string) (c : IPChecker) (w : World)
  : Outcome * IPChecker * World :=
  (* Parse and validate the IP address *)
  match net.ParseIP ipStr with
  | None => (Return None (Some (errorString "invalid IP address format")), c, w)
  | Some ip =>
  (* Ensure it's an IPv4 address *)
  match net.To4 ip with
  | None =>
      (Return None (Some (errorString "only IPv4 addresses are supported")), c, w)
  | Some ip =>
  (* Check if it's a public IP address *)
  if net.IsPrivate ip || net.IsLoopback ip || net.IsUnspecified ip
     || net.IsMulticast ip || isBroadcastAddress ip
  then (Return None
          (Some (errorString "IP address must be a public, routable address")),
        c, w)
  else
  (* Fetch GitHub meta if not already cached *)
  let '(ferr, c, w) :=
    match meta c with
    | None => fetchGitHubMeta c w
    | Some _ => (None, c, w)
    end in
  match ferr with
  | Some err =>
      (Return None
         (Some (wrapError ("failed to fetch GitHub meta: " ++ Error err)%string
                  err)),
       c, w)
  | None =>
  (* Check each range category *)
  match meta c with
  | None => (Panic, c, w)
  | Some m => (checkRanges ip m, c, w)
  end end end end.

(** ** [main.go]: the command *)

(** The two streams the command writes to, one element per write. *)
Record Stdio := mkStdio { stdout : list string; stderr : list string }.

Definition newline : string := String (ascii_of_nat 10) EmptyString.

(** The flag set of the command, after parsing: the one flag [silent] was
    given on the command line with a value, or was not given. *)
Record Flags := mkFlags { silentFlag : option bool }.

(** [cmd.Flags().GetBool("silent")]: the value given, else the default. *)
Definition GetBool (f : Flags) : bool :=
  match silentFlag f with
  | Some b => b
  | None => false
  end.


(** What a function of the command does: it returns its error, or panics. *)
Inductive Ran : Type :=
  | Returned (err : option error)
  | Panicked.

Definition notGitHubOwned : string :=
  "The provided IP address is not a GitHub-owned address".

(** [func runCommand(cmd *cobra.Command, args []string) error] *)
Definition runCommand (flags : Flags) (args : list string) (w : World)
    (io : Stdio) : Ran * World * Stdio :=
  match args with
  | [] => (Panicked, w, io)                    (* [args[0]]: index out of range *)
  | ipAddress :: _ =>
      let silent := GetBool flags in
      let checker := NewIPChecker in
      let '(o, _, w) := CheckIP ipAddress checker w in
      match o with
      | Panic => (Panicked, w, io)
      | Return _ (Some err) => (Returned (Some err), w, io)
      | Return None None => (Panicked, w, io)  (* [result.IsGitHubIP] on nil *)
      | Return (Some result) None =>
          if negb (IsGitHubIP result) then
            (Returned (Some (errorString notGitHubOwned)), w, io)
          else if negb silent then
            (Returned None, w,
             mkStdio
               (stdout io
                ++ [("IP " ++ ipAddress ++ " belongs to GitHub's "
                     ++ FunctionalArea result ++ " range (" ++ Range result
                     ++ ")" ++ newline)%string])
               (stderr io))
          else (Returned None, w, io)
      end
  end.







(** The JSON served by the test server [successServer]. *)
Definition successJSON : json :=
  JObject (map (fun f => (tag f, JArray [JString "192.30.252.0/22"])) allFields).

Definition testWorld (r : GetResult) : World :=
  mkWorld "https://api.github.com/meta" (fun _ _ => r) [].

(** The JSON served by [invalidCIDRServer] and by [mixedCIDRServer]. *)
Definition invalidCIDRJSON : json :=
  JObject [ ("hooks", JArray [JString "invalid-cidr"]);
            ("web", JArray [JString "not-a-cidr"]);
            ("api", JArray [JString "192.30.252.0/22"]);
            ("git", JArray [JString "192.30.252.0/22"]) ].

Definition mixedCIDRJSON : json :=
  JObject [ ("hooks", JArray [JString "invalid-cidr"; JString "also-invalid"]);
            ("web", JArray [JString "not-a-cidr"]);
            ("api", JArray [JString "invalid"]);
            ("git", JArray [JString "192.30.252.0/22"]) ].

(** * Specification vocabulary *)

(** ** Validation *)

Definition errMalformed : error := errorString "invalid IP address format".
Definition errNotIPv4 : error := errorString "only IPv4 addresses are supported".
Definition errNotRoutable : error :=
  errorString "IP address must be a public, routable address".

(** The test of the third [if] of [CheckIP]. *)
Definition nonRoutable (ip : net.IP) : bool :=
  net.IsPrivate ip || net.IsLoopback ip || net.IsUnspecified ip
  || net.IsMulticast ip || isBroadcastAddress ip.

(** [Rejected s e]: validation refuses the text [s] for the reason [e]. *)
Inductive Rejected (s : string) : error -> Prop :=
  | RejMalformed :
      net.ParseIP s = None -> Rejected s errMalformed
  | RejNotIPv4 ip16 :
      net.ParseIP s = Some ip16 -> net.To4 ip16 = None ->
      Rejected s errNotIPv4
  | RejNotRoutable ip16 ip :
      net.ParseIP s = Some ip16 -> net.To4 ip16 = Some ip ->
      nonRoutable ip = true ->
      Rejected s errNotRoutable.

(** [Validated s ip]: validation accepts [s] as the 4-byte address [ip]. *)
Definition Validated (s : string) (ip : net.IP) : Prop :=
  exists ip16, net.ParseIP s = Some ip16 /\ net.To4 ip16 = Some ip
               /\ nonRoutable ip = false.

(** ** The range set a call works with *)

(** The answer the remote end gives to the next request. *)
Definition nextAnswer (w : World) : GetResult :=
  remote w (githubMetaURL w) (List.length (requests w)).

(** The world after one more GET of [githubMetaURL]. *)
Definition afterGet (w : World) : World :=
  mkWorld (githubMetaURL w) (remote w) (requests w ++ [githubMetaURL w]).

(** [FetchSuccess r m]: the answer [r] has status 200 and its body decodes,
    without error, to the range set [m]. *)
Inductive FetchSuccess : GetResult -> GitHubMeta -> Prop :=
  | FetchOK body m :
      Decode body zeroMeta = (m, None) ->
      FetchSuccess (GetResponse StatusOK body) m.

(** [Available c w m]: the range set a call works with is [m], the
    memoized one, or with nothing memoized the one the next fetch brings. *)
Inductive Available (c : IPChecker) (w : World) (m : GitHubMeta) : Prop :=
  | Memoized : meta c = Some m -> Available c w m
  | Fetched : meta c = None -> FetchSuccess (nextAnswer w) m -> Available c w m.

(** ** Matching *)

(** The entry [cidr] parses and its block contains [ip]. *)
Definition matches (ip : net.IP) (cidr : string) : bool :=
  match net.ParseCIDR cidr with
  | Some (_, ipNet) => net.Contains ipNet ip
  | None => false
  end.

Definition parseable (cidr : string) : bool :=
  match net.ParseCIDR cidr with Some _ => true | None => false end.

(** The categories in their declared order. *)
Definition declaredOrder : list string :=
  ["Hooks"; "Web"; "API"; "Git"; "Packages"; "Pages"; "Importer"; "Actions";
   "Dependabot"; "Actions IPv4"].

(** Every (category, entry) pair of a range set: categories in declared
    order, the entries of a category in source order. *)
Definition entries (m : GitHubMeta) : list (string * string) :=
  map (pair "Hooks") (Hooks m) ++ map (pair "Web") (Web m)
  ++ map (pair "API") (Api m) ++ map (pair "Git") (Git m)
  ++ map (pair "Packages") (Packages m) ++ map (pair "Pages") (Pages m)
  ++ map (pair "Importer") (Importer m) ++ map (pair "Actions") (Actions m)
  ++ map (pair "Dependabot") (Dependabot m)
  ++ map (pair "Actions IPv4") (ActionsIPv4 m).

(** [(name, cidr)] is the first entry of [es] that matches [ip]. *)
Definition FirstMatch (ip : net.IP) (es : list (string * string))
    (name cidr : string) : Prop :=
  exists pre post,
    es = pre ++ (name, cidr) :: post
    /\ matches ip cidr = true
    /\ Forall (fun e => matches ip (snd e) = false) pre.

(** ** Structure of [CheckIP] *)

(** What a response is worth: [inl] the range set decoded from a 200
    response, [inr] the error [fetchGitHubMeta] returns. *)
Definition fetchResult (r : GetResult) : GitHubMeta + error :=
  match r with
  | GetFailed err =>
      inr (wrapError ("failed to fetch GitHub meta: " ++ Error err)%string err)
  | GetResponse code body =>
      if code =? StatusOK then
        match Decode body zeroMeta with
        | (m, None) => inl m
        | (_, Some err) =>
            inr (wrapError
                   ("failed to decode GitHub meta response: " ++ Error err)%string
                   err)
        end
      else inr (errorString
                  ("GitHub API returned status code " ++ itoa code)%string)
  end.

(** After validation: the lazy fetch, then the scan. *)
Definition classify (ip : net.IP) (c : IPChecker) (w : World)
  : Outcome * IPChecker * World :=
  match meta c with
  | Some m => (checkRanges ip m, c, w)
  | None =>
      match fetchResult (nextAnswer w) with
      | inl m => (checkRanges ip m, mkIPChecker (Some m), afterGet w)
      | inr e =>
          (Return None
             (Some (wrapError
                      ("failed to fetch GitHub meta: " ++ Error e)%string e)),
           c, afterGet w)
      end
  end.

(** ** The scan is a first-match search *)

Definition hit (e : string * string) : CheckResult :=
  mkCheckResult true (fst e) (snd e).

Definition firstHit (ip : net.IP) (es : list (string * string))
  : option (string * string) :=
  find (fun e => matches ip (snd e)) es.

(** ** Malformed entries *)

(** The range set without the entries that fail CIDR parsing. *)
Definition cleanMeta (m : GitHubMeta) : GitHubMeta :=
  mkGitHubMeta
    (filter parseable (Hooks m)) (filter parseable (Web m))
    (filter parseable (Api m)) (filter parseable (Git m))
    (filter parseable (Packages m)) (filter parseable (Pages m))
    (filter parseable (Importer m)) (filter parseable (Actions m))
    (filter parseable (Dependabot m)) (filter parseable (ActionsIPv4 m)).

(** ** Fetch failures *)

(** The errors [fetchGitHubMeta] returns, one per failure mode. *)
Definition errTransport (err : error) : error :=
  wrapError ("failed to fetch GitHub meta: " ++ Error err)%string err.

Definition errBadStatus (code : Z) : error :=
  errorString ("GitHub API returned status code " ++ itoa code)%string.

Definition errDecode (err : error) : error :=
  wrapError ("failed to decode GitHub meta response: " ++ Error err)%string err.

(** The error [CheckIP] returns around the error [e] of the fetch. *)
Definition surfaced (e : error) : error :=
  wrapError ("failed to fetch GitHub meta: " ++ Error e)%string e.

Inductive Mode : Type :=
  | Transport
  | BadStatus (code : Z)
  | DecodeFailure.

(** [FetchFailure r mode e]: the answer [r] makes the fetch fail in the
    mode [mode], and [fetchGitHubMeta] returns the error [e]. *)
Inductive FetchFailure : GetResult -> Mode -> error -> Prop :=
  | FailTransport err :
      FetchFailure (GetFailed err) Transport (errTransport err)
  | FailBadStatus code body :
      code <> StatusOK ->
      FetchFailure (GetResponse code body) (BadStatus code) (errBadStatus code)
  | FailDecode body m err :
      Decode body zeroMeta = (m, Some err) ->
      FetchFailure (GetResponse StatusOK body) DecodeFailure (errDecode err).

(** ** Memoization *)

(** A sequence of calls on one instance. *)
Fixpoint runCalls (inputs : list string) (c : IPChecker) (w : World)
  : list Outcome * IPChecker * World :=
  match inputs with
  | [] => ([], c, w)
  | s :: rest =>
      let '(o, c, w) := CheckIP s c w in
      let '(os, c, w) := runCalls rest c w in
      (o :: os, c, w)
  end.

(** The [j]-th GET sent after the world [w] fails. *)
Definition failsAt (w : World) (j : nat) : Prop :=
  exists mode e,
    FetchFailure
      (remote w (githubMetaURL w) (List.length (requests w) + j)%nat) mode e.

(** The trace of a sequence of calls on an instance with nothing memoized:
    [k] GETs of [githubMetaURL] are sent; either all of them fail and the
    cache is still unset, or the last one succeeds, all before it fail, and
    its range set is the memoized one. *)
Definition Trace (w : World) (c' : IPChecker) (w' : World) (k : nat) : Prop :=
  githubMetaURL w' = githubMetaURL w
  /\ remote w' = remote w
  /\ requests w' = requests w ++ repeat (githubMetaURL w) k
  /\ ((meta c' = None /\ forall j, (j < k)%nat -> failsAt w j)
      \/ (exists k0 m,
            k = S k0 /\ meta c' = Some m
            /\ FetchSuccess
                 (remote w (githubMetaURL w) (List.length (requests w) + k0)%nat)
                 m
            /\ forall j, (j < k0)%nat -> failsAt w j)).

(** ** Parsed addresses are sixteen bytes *)

Definition octet (x : Z) : Prop := 0 <= x < 256.

Definition wf (n : nat) (ip : list Z) : Prop :=
  List.length ip = n /\ Forall octet ip.

(** ** IPv6 literals *)

(** The text is an IPv6 literal: [ParseAddr] reads it as an IPv6 address
    without zone. *)
Definition IPv6Literal (s : string) (ip16 : net.IP) : Prop :=
  exists a, net.ParseAddr s = Some a /\ net.Is4 a = false
            /\ net.Zone a = "" /\ net.As16 a = ip16.

(** ** The routability constraint *)

(** The IPv4 addresses [a.b.c.d] of the classes validation refuses. *)
Inductive NotRoutableAddr : Z -> Z -> Z -> Z -> Prop :=
  | InPrivate10 b c d : NotRoutableAddr 10 b c d            (* 10.0.0.0/8 *)
  | InPrivate172 b c d :
      16 <= b <= 31 -> NotRoutableAddr 172 b c d            (* 172.16.0.0/12 *)
  | InPrivate192 c d : NotRoutableAddr 192 168 c d          (* 192.168.0.0/16 *)
  | InLoopback b c d : NotRoutableAddr 127 b c d            (* 127.0.0.0/8 *)
  | IsZero : NotRoutableAddr 0 0 0 0                        (* 0.0.0.0 *)
  | InMulticast a b c d :
      224 <= a <= 239 -> NotRoutableAddr a b c d            (* 224.0.0.0/4 *)
  | IsAllOnes : NotRoutableAddr 255 255 255 255.            (* broadcast *)

(** ** Objects with missing or extra keys *)




(** ** The test cases of the repository, run on the embedding *)

Definition metaURL : string := "https://api.github.com/meta".

Definition successWorld : World :=
  testWorld (GetResponse 200 (JSONValue successJSON)).

Definition successMeta : GitHubMeta :=
  let r := ["192.30.252.0/22"] in mkGitHubMeta r r r r r r r r r r.

Definition invalidCIDRWorld : World :=
  testWorld (GetResponse 200 (JSONValue invalidCIDRJSON)).

Definition invalidCIDRMeta : GitHubMeta :=
  mkGitHubMeta ["invalid-cidr"] ["not-a-cidr"] ["192.30.252.0/22"]
    ["192.30.252.0/22"] [] [] [] [] [] [].

Definition mixedCIDRWorld : World :=
  testWorld (GetResponse 200 (JSONValue mixedCIDRJSON)).

Definition errorWorld : World :=
  testWorld (GetResponse 500 (NotJSON (errorString "EOF"))).

Definition invalidJSONWorld : World :=
  testWorld
    (GetResponse 200
       (NotJSON (errorString
                   "invalid character 'i' looking for beginning of value"))).

Definition failingWorld : World :=
  testWorld (GetFailed (errorString "failed to fetch GitHub meta")).

Definition outcomeOf (r : Outcome * IPChecker * World) : Outcome := fst (fst r).

(** ** Dotted-decimal text *)

(** The text [a.b.c.d] of an IPv4 address. *)
Definition dotted (a b c d : Z) : string :=
  (itoa a ++ "." ++ itoa b ++ "." ++ itoa c ++ "." ++ itoa d)%string.

Fixpoint lastChar (s : string) : ascii :=
  match s with
  | EmptyString => "0"%char
  | String c EmptyString => c
  | String _ rest => lastChar rest
  end.

(** ** The behaviours of a call *)

(** [Ready c w m c' w']: the range set [m] is at hand, memoized already
    (nothing changes) or fetched now (one GET, [m] memoized). *)
Inductive Ready (c : IPChecker) (w : World) (m : GitHubMeta)
  : IPChecker -> World -> Prop :=
  | ReadyMemoized : meta c = Some m -> Ready c w m c w
  | ReadyFetched :
      meta c = None -> FetchSuccess (nextAnswer w) m ->
      Ready c w m (mkIPChecker (Some m)) (afterGet w).

(** [Checks s c w o c' w']: one of the four ways a call of [CheckIP] on the
    text [s] goes, with its outcome and the checker and world it leaves. *)
Inductive Checks (s : string) (c : IPChecker) (w : World)
  : Outcome -> IPChecker -> World -> Prop :=
  | ChecksRejected e :
      Rejected s e -> Checks s c w (Return None (Some e)) c w
  | ChecksFetchFailed ip mode e :
      Validated s ip -> meta c = None ->
      FetchFailure (nextAnswer w) mode e ->
      Checks s c w (Return None (Some (surfaced e))) c (afterGet w)
  | ChecksMember ip m name cidr c' w' :
      Validated s ip -> Ready c w m c' w' ->
      FirstMatch ip (entries m) name cidr ->
      Checks s c w (Return (Some (mkCheckResult true name cidr)) None) c' w'
  | ChecksNotMember ip m c' w' :
      Validated s ip -> Ready c w m c' w' ->
      (forall name cidr, In (name, cidr) (entries m) -> matches ip cidr = false) ->
      Checks s c w (Return (Some (mkCheckResult false "" "")) None) c' w'.

(** The line [runCommand] prints for a member. *)
Definition memberLine (ipAddress name cidr : string) : string :=
  ("IP " ++ ipAddress ++ " belongs to GitHub's " ++ name ++ " range ("
   ++ cidr ++ ")" ++ newline)%string.

(** ** The verdict of an invocation *)

(** What one invocation of the command, with its fresh checker, finds out
    about its argument. *)
Inductive Verdict : Type :=
  | IsMember (name cidr : string)
  | IsNotMember
  | IsRejected (e : error)
  | IsUnavailable (e : error).

Inductive Judged (s : string) (w : World) : Verdict -> Prop :=
  | JRejected e : Rejected s e -> Judged s w (IsRejected e)
  | JUnavailable ip mode e :
      Validated s ip -> FetchFailure (nextAnswer w) mode e ->
      Judged s w (IsUnavailable e)
  | JMember ip m name cidr :
      Validated s ip -> FetchSuccess (nextAnswer w) m ->
      FirstMatch ip (entries m) name cidr ->
      Judged s w (IsMember name cidr)
  | JNotMember ip m :
      Validated s ip -> FetchSuccess (nextAnswer w) m ->
      (forall name cidr, In (name, cidr) (entries m) -> matches ip cidr = false) ->
      Judged s w IsNotMember.

(** The error [runCommand] returns on a verdict. *)
Definition verdictError (v : Verdict) : option error :=
  match v with
  | IsMember _ _ => None
  | IsNotMember => Some (errorString notGitHubOwned)
  | IsRejected e => Some e
  | IsUnavailable e => Some (surfaced e)
  end.

(** The world an invocation leaves: one GET sent unless the argument was
    refused by validation. *)
Definition verdictWorld (v : Verdict) (w : World) : World :=
  match v with
  | IsRejected _ => w
  | _ => afterGet w
  end.



(** ** The characters of an address *)

Fixpoint allChars (p : ascii -> bool) (s : string) : bool :=
  match s with
  | EmptyString => true
  | String c rest => p c && allChars p rest
  end.

(** A hexadecimal digit, a dot or a colon. *)
Definition addressChar (c : ascii) : bool :=
  match net.hexDigit c with
  | Some _ => true
  | None => isChar c "." || isChar c ":"
  end.

(** ** CIDR text *)

(** The text [x.y.z.t/n] of an IPv4 block. *)
Definition cidrText (x y z t n : Z) : string :=
  (dotted x y z t ++ "/" ++ itoa n)%string.

(** The 32-bit value of the address [a.b.c.d]. *)
Definition addrValue (a b c d : Z) : Z :=
  a * 16777216 + b * 65536 + c * 256 + d.

(** ** IPv4-mapped text *)

(** The text [::ffff:a.b.c.d]. *)
Definition mappedText (a b c d : Z) : string :=
  ("::ffff:" ++ dotted a b c d)%string.

(** ** Bodies the decoder accepts *)





(** * Lemmas and theorems *)

(** ** Structure of [CheckIP] *)

Lemma fetchGitHubMeta_eq (c : IPChecker) (w : World) :
  fetchGitHubMeta c w =
    match fetchResult (nextAnswer w) with
    | inl m => (None, mkIPChecker (Some m), afterGet w)
    | inr e => (Some e, c, afterGet w)
    end.
Proof.
  unfold fetchGitHubMeta, httpGet, fetchResult, nextAnswer, afterGet.
  destruct (remote w (githubMetaURL w) (List.length (requests w)))
    as [err | code body]; [reflexivity |].
  destruct (code =? StatusOK); simpl; [| reflexivity].
  destruct (Decode body zeroMeta) as [m [derr |]]; reflexivity.
Qed.

Lemma fetchResult_failure (r : GetResult) (mode : Mode) (e : error) :
  FetchFailure r mode e -> fetchResult r = inr e.
Proof.
  intros H. destruct H as [err | code body Hc | body m err Hd]; simpl.
  - reflexivity.
  - apply Z.eqb_neq in Hc. rewrite Hc. reflexivity.
  - rewrite Hd. reflexivity.
Qed.

Lemma fetchResult_inr (r : GetResult) (e : error) :
  fetchResult r = inr e -> exists mode, FetchFailure r mode e.
Proof.
  destruct r as [err | code body]; simpl.
  - intros H. injection H as <-. exists Transport. constructor.
  - destruct (code =? StatusOK) eqn:Hc.
    + apply Z.eqb_eq in Hc. subst code.
      destruct (Decode body zeroMeta) as [m [err |]] eqn:Hd; [| discriminate].
      intros H. injection H as <-. exists DecodeFailure.
      econstructor. exact Hd.
    + apply Z.eqb_neq in Hc. intros H. injection H as <-.
      exists (BadStatus code). constructor. exact Hc.
Qed.

Lemma fetchResult_success (r : GetResult) (m : GitHubMeta) :
  FetchSuccess r m -> fetchResult r = inl m.
Proof.
  intros [body m' Hd]. cbn [fetchResult]. rewrite Z.eqb_refl, Hd. reflexivity.
Qed.

Lemma fetchResult_inl (r : GetResult) (m : GitHubMeta) :
  fetchResult r = inl m -> FetchSuccess r m.
Proof.
  destruct r as [err | code body]; cbn [fetchResult]; [discriminate |].
  destruct (code =? StatusOK) eqn:Hc; [| discriminate].
  apply Z.eqb_eq in Hc. subst code.
  destruct (Decode body zeroMeta) as [m' [err |]] eqn:Hd; [discriminate |].
  intros H. injection H as <-. constructor. exact Hd.
Qed.

Lemma CheckIP_rejected (s : string) (e : error) (c : IPChecker) (w : World) :
  Rejected s e -> CheckIP s c w = (Return None (Some e), c, w).
Proof.
  intros H. unfold CheckIP.
  destruct H as [Hp | ip16 Hp H4 | ip16 ip Hp H4 Hr].
  - rewrite Hp. reflexivity.
  - rewrite Hp, H4. reflexivity.
  - rewrite Hp, H4. unfold nonRoutable in Hr. rewrite Hr. reflexivity.
Qed.

Lemma CheckIP_validated (s : string) (ip : net.IP) (c : IPChecker) (w : World) :
  Validated s ip -> CheckIP s c w = classify ip c w.
Proof.
  intros (ip16 & Hp & H4 & Hr). unfold CheckIP, classify.
  rewrite Hp, H4. unfold nonRoutable in Hr. rewrite Hr.
  destruct (meta c) as [m |] eqn:Hm.
  - rewrite Hm. reflexivity.
  - rewrite fetchGitHubMeta_eq.
    destruct (fetchResult (nextAnswer w)) as [m | e]; reflexivity.
Qed.

(** Validation is decided: a text is accepted or refused, never both. *)
Lemma validation_total (s : string) :
  (exists ip, Validated s ip) \/ (exists e, Rejected s e).
Proof.
  destruct (net.ParseIP s) as [ip16 |] eqn:Hp.
  - destruct (net.To4 ip16) as [ip |] eqn:H4.
    + destruct (nonRoutable ip) eqn:Hr.
      * right. eexists. eapply RejNotRoutable; eauto.
      * left. exists ip, ip16. auto.
    + right. eexists. eapply RejNotIPv4; eauto.
  - right. eexists. apply RejMalformed; auto.
Qed.

Lemma validation_exclusive (s : string) (ip : net.IP) (e : error) :
  Validated s ip -> Rejected s e -> False.
Proof.
  intros (ip16 & Hp & H4 & Hr) H.
  destruct H as [Hp' | ip16' Hp' H4' | ip16' ip' Hp' H4' Hr']; congruence.
Qed.

(** [CheckIP] never dereferences a nil [c.meta]. *)
Lemma CheckIP_no_panic (s : string) (c : IPChecker) (w : World) :
  fst (fst (CheckIP s c w)) <> Panic.
Proof.
  destruct (validation_total s) as [[ip Hv] | [e Hr]].
  - rewrite (CheckIP_validated _ _ _ _ Hv). unfold classify, checkRanges.
    destruct (meta c) as [m |];
      [| destruct (fetchResult (nextAnswer w)) as [m | e]];
      cbn [fst]; try discriminate;
      destruct (scanRanges ip (ranges m)); discriminate.
  - rewrite (CheckIP_rejected _ _ _ _ Hr). discriminate.
Qed.

(** ** The scan is a first-match search *)

Lemma scanCategory_firstHit (ip : net.IP) (name : string) (cidrs : list string) :
  scanCategory ip name cidrs
  = option_map hit (firstHit ip (map (pair name) cidrs)).
Proof.
  induction cidrs as [| cidr rest IH]; [reflexivity |].
  unfold firstHit in *. cbn [scanCategory map find snd].
  unfold matches at 1.
  destruct (net.ParseCIDR cidr) as [[a ipNet] |]; [| exact IH].
  destruct (net.Contains ipNet ip); [reflexivity | exact IH].
Qed.

Lemma firstHit_app (ip : net.IP) (es1 es2 : list (string * string)) :
  firstHit ip (es1 ++ es2)
  = match firstHit ip es1 with
    | Some e => Some e
    | None => firstHit ip es2
    end.
Proof.
  unfold firstHit. induction es1 as [| e es1 IH]; [reflexivity |].
  simpl. destruct (matches ip (snd e)); [reflexivity | exact IH].
Qed.

Lemma scanRanges_cons (ip : net.IP) (name : string) (cidrs : list string)
    (cats : list (string * list string)) (es : list (string * string)) :
  scanRanges ip cats = option_map hit (firstHit ip es) ->
  scanRanges ip ((name, cidrs) :: cats)
  = option_map hit (firstHit ip (map (pair name) cidrs ++ es)).
Proof.
  intros H. cbn [scanRanges]. rewrite scanCategory_firstHit, firstHit_app.
  destruct (firstHit ip (map (pair name) cidrs)); [reflexivity | exact H].
Qed.

Lemma scanRanges_entries (ip : net.IP) (m : GitHubMeta) :
  scanRanges ip (ranges m) = option_map hit (firstHit ip (entries m)).
Proof.
  unfold ranges, entries.
  repeat apply scanRanges_cons.
  rewrite <- (app_nil_r (map (pair "Actions IPv4") (ActionsIPv4 m))) at 1.
  apply scanRanges_cons. reflexivity.
Qed.

Lemma firstHit_FirstMatch (ip : net.IP) (es : list (string * string))
    (name cidr : string) :
  firstHit ip es = Some (name, cidr) <-> FirstMatch ip es name cidr.
Proof.
  unfold firstHit, FirstMatch. induction es as [| e es IH].
  - split; [discriminate |].
    intros (pre & post & H & _). destruct pre; discriminate.
  - cbn [find]. destruct (matches ip (snd e)) eqn:He.
    + split.
      * intros H. injection H as ->. exists [], es. simpl in *. auto.
      * intros (pre & post & H & Hm & Hpre).
        destruct pre as [| e' pre].
        -- injection H as -> _. reflexivity.
        -- injection H as -> _. inversion Hpre; subst. congruence.
    + rewrite IH. split.
      * intros (pre & post & H & Hm & Hpre).
        exists (e :: pre), post. subst. auto.
      * intros (pre & post & H & Hm & Hpre).
        destruct pre as [| e' pre].
        -- injection H as -> _. simpl in He. congruence.
        -- injection H as -> ->. inversion Hpre; subst.
           exists pre, post. auto.
Qed.

Lemma firstHit_none (ip : net.IP) (es : list (string * string)) :
  firstHit ip es = None
  <-> (forall name cidr, In (name, cidr) es -> matches ip cidr = false).
Proof.
  unfold firstHit. split.
  - intros H name cidr Hin. exact (find_none _ _ H _ Hin).
  - intros H. induction es as [| [n c] es IH]; [reflexivity |].
    cbn [find snd]. rewrite (H n c (or_introl eq_refl)).
    apply IH. intros name cidr Hin. apply (H name cidr). right. exact Hin.
Qed.

(** The outcome of [CheckIP] on a validated address with a range set. *)
Lemma CheckIP_available (s : string) (ip : net.IP) (c : IPChecker) (w : World)
    (m : GitHubMeta) :
  Validated s ip -> Available c w m ->
  fst (fst (CheckIP s c w)) = checkRanges ip m.
Proof.
  intros Hv Ha. rewrite (CheckIP_validated _ _ _ _ Hv). unfold classify.
  destruct Ha as [Hm | Hm Hok]; rewrite Hm.
  - reflexivity.
  - rewrite (fetchResult_success _ _ Hok). reflexivity.
Qed.

Lemma checkRanges_firstHit (ip : net.IP) (m : GitHubMeta) :
  checkRanges ip m
  = match firstHit ip (entries m) with
    | Some e => Return (Some (hit e)) None
    | None => Return (Some (mkCheckResult false "" "")) None
    end.
Proof.
  unfold checkRanges. rewrite scanRanges_entries.
  destruct (firstHit ip (entries m)); reflexivity.
Qed.

Lemma firstHit_category (ip : net.IP) (name : string) (l : list string)
    (e : string * string) :
  firstHit ip (map (pair name) l) = Some e ->
  fst e = name /\ In (snd e) l /\ matches ip (snd e) = true.
Proof.
  unfold firstHit. intros H. apply find_some in H. destruct H as [Hin Hm].
  apply in_map_iff in Hin. destruct Hin as (x & <- & Hx). auto.
Qed.

Lemma firstHit_category_some (ip : net.IP) (name : string) (l : list string) :
  (exists x, In x l /\ matches ip x = true) ->
  exists e, firstHit ip (map (pair name) l) = Some e.
Proof.
  intros (x & Hin & Hm).
  destruct (firstHit ip (map (pair name) l)) as [e |] eqn:H; [eauto |].
  rewrite (proj1 (firstHit_none _ _) H name x) in Hm; [discriminate |].
  apply in_map. exact Hin.
Qed.

Lemma firstHit_category_none (ip : net.IP) (name : string) (l : list string) :
  (forall x, In x l -> matches ip x = false) ->
  firstHit ip (map (pair name) l) = None.
Proof.
  intros H. apply firstHit_none. intros n c Hin.
  apply in_map_iff in Hin. destruct Hin as (x & Hx & Hin).
  injection Hx as _ <-. auto.
Qed.

(** ** Order of the categories and first match (C1) *)

(** C1. For a validated address and an available range set, the table
    scanned by [CheckIP] names the categories in the declared order Hooks,
    Web, API, Git, Packages, Pages, Importer, Actions, Dependabot,
    Actions IPv4; [CheckIP] reports a positive result for (category, CIDR)
    exactly when that pair is the first entry, categories in declared order
    and entries in source order, that parses and contains the address, and
    the reported range is that entry's string.  When entries of both API
    and Git match, a match is reported, it is never Git, and it is API as
    soon as no entry of the two earlier categories matches. *)
Theorem C1_first_match_in_declared_order
    (s : string) (ip : net.IP) (c : IPChecker) (w : World) (m : GitHubMeta) :
  Validated s ip -> Available c w m ->
  map fst (ranges m) = declaredOrder
  /\ (forall name cidr,
        fst (fst (CheckIP s c w))
          = Return (Some (mkCheckResult true name cidr)) None
        <-> FirstMatch ip (entries m) name cidr)
  /\ ((exists x, In x (Api m) /\ matches ip x = true) ->
      (exists y, In y (Git m) /\ matches ip y = true) ->
      exists r,
        fst (fst (CheckIP s c w)) = Return (Some r) None
        /\ IsGitHubIP r = true
        /\ FunctionalArea r <> "Git"
        /\ ((forall z, In z (Hooks m ++ Web m) -> matches ip z = false) ->
            FunctionalArea r = "API")).
Proof.
  intros Hv Ha. rewrite (CheckIP_available _ _ _ _ _ Hv Ha).
  rewrite checkRanges_firstHit.
  split; [reflexivity | split].
  - intros name cidr. rewrite <- firstHit_FirstMatch.
    destruct (firstHit ip (entries m)) as [[n x] |]; unfold hit; cbn [fst snd].
    + split; intros H; injection H as -> ->; reflexivity.
    + split; discriminate.
  - intros Hapi _. unfold entries. rewrite !firstHit_app.
    destruct (firstHit ip (map (pair "Hooks") (Hooks m))) as [e |] eqn:Hh.
    { apply firstHit_category in Hh. destruct Hh as (Hn & Hin & Hm).
      exists (hit e). unfold hit. cbn [IsGitHubIP FunctionalArea].
      rewrite Hn. repeat split; try discriminate.
      intros Hno. rewrite (Hno (snd e)) in Hm; [discriminate |].
      apply in_or_app. auto. }
    destruct (firstHit ip (map (pair "Web") (Web m))) as [e |] eqn:Hw.
    { apply firstHit_category in Hw. destruct Hw as (Hn & Hin & Hm).
      exists (hit e). unfold hit. cbn [IsGitHubIP FunctionalArea].
      rewrite Hn. repeat split; try discriminate.
      intros Hno. rewrite (Hno (snd e)) in Hm; [discriminate |].
      apply in_or_app. auto. }
    destruct (firstHit_category_some ip "API" _ Hapi) as [e He].
    rewrite He. apply firstHit_category in He. destruct He as (Hn & _ & _).
    exists (hit e). unfold hit. cbn [IsGitHubIP FunctionalArea].
    rewrite Hn. repeat split; try discriminate.
Qed.

(** ** Malformed entries (C2) *)

Lemma scanCategory_skip (ip : net.IP) (name bad : string) (l1 l2 : list string) :
  net.ParseCIDR bad = None ->
  scanCategory ip name (l1 ++ bad :: l2) = scanCategory ip name (l1 ++ l2).
Proof.
  intros Hb. induction l1 as [| x l1 IH]; cbn [app scanCategory].
  - rewrite Hb. reflexivity.
  - destruct (net.ParseCIDR x) as [[a n] |]; [| exact IH].
    destruct (net.Contains n ip); [reflexivity | exact IH].
Qed.

Lemma scanCategory_filter (ip : net.IP) (name : string) (l : list string) :
  scanCategory ip name (filter parseable l) = scanCategory ip name l.
Proof.
  induction l as [| x l IH]; [reflexivity |].
  cbn [filter]. unfold parseable at 1.
  destruct (net.ParseCIDR x) as [[a n] |] eqn:Hx; cbn [scanCategory]; rewrite Hx.
  - rewrite IH. reflexivity.
  - exact IH.
Qed.

Lemma checkRanges_clean (ip : net.IP) (m : GitHubMeta) :
  checkRanges ip (cleanMeta m) = checkRanges ip m.
Proof.
  unfold checkRanges, cleanMeta, ranges. cbn [scanRanges].
  cbn [Hooks Web Api Git Packages Pages Importer Actions Dependabot ActionsIPv4].
  rewrite !scanCategory_filter. reflexivity.
Qed.

Lemma checkRanges_returns (ip : net.IP) (m : GitHubMeta) :
  exists r, checkRanges ip m = Return (Some r) None.
Proof.
  unfold checkRanges. destruct (scanRanges ip (ranges m)); eauto.
Qed.

(** C2. On a validated address and an available range set that holds
    entries failing CIDR parsing, [CheckIP] returns a result and a nil
    error; the outcome is the one the range set without its malformed
    entries gives, and the first match is the first match among the
    entries that parse, in the declared order. *)
Theorem C2_malformed_entries_skipped
    (s : string) (ip : net.IP) (c : IPChecker) (w : World) (m : GitHubMeta) :
  Validated s ip -> Available c w m ->
  (exists r, fst (fst (CheckIP s c w)) = Return (Some r) None)
  /\ fst (fst (CheckIP s c w)) = checkRanges ip (cleanMeta m)
  /\ (forall name cidr,
        fst (fst (CheckIP s c w))
          = Return (Some (mkCheckResult true name cidr)) None
        <-> FirstMatch ip (entries (cleanMeta m)) name cidr).
Proof.
  intros Hv Ha. rewrite (CheckIP_available _ _ _ _ _ Hv Ha).
  split; [apply checkRanges_returns | split].
  - symmetry. apply checkRanges_clean.
  - intros name cidr. rewrite <- checkRanges_clean, checkRanges_firstHit.
    rewrite <- firstHit_FirstMatch.
    destruct (firstHit ip (entries (cleanMeta m))) as [[n x] |];
      unfold hit; cbn [fst snd].
    + split; intros H; injection H as -> ->; reflexivity.
    + split; discriminate.
Qed.

(** ** No match (C7) *)

(** C7. On a validated address and an available range set, [CheckIP]
    returns the negative result, member flag false with empty category and
    range, and a nil error, exactly when no entry of any category parses
    and contains the address. *)
Theorem C7_no_match_is_negative_result
    (s : string) (ip : net.IP) (c : IPChecker) (w : World) (m : GitHubMeta) :
  Validated s ip -> Available c w m ->
  ((forall name cidr, In (name, cidr) (entries m) -> matches ip cidr = false)
   <-> fst (fst (CheckIP s c w))
       = Return (Some (mkCheckResult false "" "")) None).
Proof.
  intros Hv Ha. rewrite (CheckIP_available _ _ _ _ _ Hv Ha).
  rewrite checkRanges_firstHit, <- firstHit_none.
  destruct (firstHit ip (entries m)) as [e |]; split;
    try reflexivity; discriminate.
Qed.

(** ** Fetch failures (C4, C9) *)

Lemma itoa_inj (n n' : Z) : itoa n = itoa n' -> n = n'.
Proof.
  unfold itoa. intros H. apply DecimalZ.to_int_inj.
  assert (Hnz : forall z, Z.to_int z <> Decimal.Pos Decimal.Nil
                          /\ Z.to_int z <> Decimal.Neg Decimal.Nil).
  { intros [| p | p]; simpl; split; try discriminate;
      intros E; injection E as E; exact (DecimalPos.Unsigned.to_uint_nonnil p E). }
  assert (Hs : Some (Z.to_int n) = Some (Z.to_int n')).
  { rewrite <- (NilZero.isi (Z.to_int n)) by apply Hnz.
    rewrite <- (NilZero.isi (Z.to_int n')) by apply Hnz.
    rewrite H. reflexivity. }
  injection Hs as Hs. exact Hs.
Qed.

Lemma String_tail_inj (c : ascii) (s s' : string) :
  String c s = String c s' -> s = s'.
Proof. intros H. injection H as H. exact H. Qed.

(** Peels the common characters off an equation between two strings. *)
Ltac peel H :=
  cbn [append Error surfaced errTransport errBadStatus errDecode
       errMalformed errNotIPv4 errNotRoutable] in H;
  repeat (apply String_tail_inj in H);
  try discriminate H.

(** The message of a surfaced fetch error tells the mode, and the status. *)
Lemma surfaced_mode (r r' : GetResult) (mode mode' : Mode) (e e' : error) :
  FetchFailure r mode e -> FetchFailure r' mode' e' ->
  Error (surfaced e) = Error (surfaced e') -> mode = mode'.
Proof.
  intros H H' E.
  destruct H; destruct H'; try reflexivity; try (exfalso; peel E; fail).
  peel E. apply itoa_inj in E. subst. reflexivity.
Qed.

Lemma surfaced_not_validation (r : GetResult) (mode : Mode) (e : error) :
  FetchFailure r mode e ->
  Error (surfaced e) <> Error errMalformed
  /\ Error (surfaced e) <> Error errNotIPv4
  /\ Error (surfaced e) <> Error errNotRoutable.
Proof.
  intros H. repeat split; intros E; destruct H; peel E.
Qed.

Lemma notJSON_is_decode_failure (err : error) :
  FetchFailure (GetResponse StatusOK (NotJSON err)) DecodeFailure (errDecode err).
Proof. apply (FailDecode _ zeroMeta). reflexivity. Qed.

Lemma classify_failure (ip : net.IP) (c : IPChecker) (w : World)
    (mode : Mode) (e : error) :
  meta c = None -> FetchFailure (nextAnswer w) mode e ->
  classify ip c w = (Return None (Some (surfaced e)), c, afterGet w).
Proof.
  intros Hm Hf. unfold classify. rewrite Hm.
  rewrite (fetchResult_failure _ _ _ Hf). reflexivity.
Qed.

(** C4. On a validated address with nothing memoized, a fetch that fails
    makes [CheckIP] return no result and the error of its mode wrapped
    once: a transport failure its transport error, a status other than 200
    the status error with the code (500 gives "... status code 500"), an
    undecodable body the decode error.  The message is none of the three
    validation messages, and two failures with the same message have the
    same mode and, for a bad status, the same code. *)
Theorem C4_fetch_failures_surface_distinctly
    (s : string) (ip : net.IP) (c : IPChecker) (w : World)
    (mode : Mode) (e : error) :
  Validated s ip -> meta c = None -> FetchFailure (nextAnswer w) mode e ->
  fst (fst (CheckIP s c w)) = Return None (Some (surfaced e))
  /\ match mode with
     | Transport =>
         exists err, nextAnswer w = GetFailed err /\ e = errTransport err
     | BadStatus code =>
         e = errBadStatus code
         /\ Error (surfaced e)
            = ("failed to fetch GitHub meta: GitHub API returned status code "
               ++ itoa code)%string
     | DecodeFailure => exists err, e = errDecode err
     end
  /\ (mode = BadStatus 500 ->
      Error (surfaced e)
      = "failed to fetch GitHub meta: GitHub API returned status code 500")
  /\ (Error (surfaced e) <> Error errMalformed
      /\ Error (surfaced e) <> Error errNotIPv4
      /\ Error (surfaced e) <> Error errNotRoutable)
  /\ (forall r' mode' e',
        FetchFailure r' mode' e' ->
        Error (surfaced e) = Error (surfaced e') -> mode = mode').
Proof.
  intros Hv Hm Hf. rewrite (CheckIP_validated _ _ _ _ Hv).
  rewrite (classify_failure _ _ _ _ _ Hm Hf).
  split; [reflexivity |]. split; [| split; [| split]].
  - inversion Hf; subst; eauto.
  - intros ->. inversion Hf; subst. reflexivity.
  - exact (surfaced_not_validation _ _ _ Hf).
  - intros r' mode' e' Hf'. exact (surfaced_mode _ _ _ _ _ _ Hf Hf').
Qed.

(** C9. On a validated address with nothing memoized, a fetch that fails
    in any mode leaves the checker as it was, its cache unset, after one
    GET; the next call with a validated address on the same instance sends
    a GET again. *)
Theorem C9_failed_fetch_leaves_cache_unset
    (s : string) (ip : net.IP) (c : IPChecker) (w : World)
    (mode : Mode) (e : error) :
  Validated s ip -> meta c = None -> FetchFailure (nextAnswer w) mode e ->
  CheckIP s c w = (Return None (Some (surfaced e)), c, afterGet w)
  /\ requests (afterGet w) = requests w ++ [githubMetaURL w]
  /\ (forall s2 ip2, Validated s2 ip2 ->
        exists o c2,
          CheckIP s2 c (afterGet w) = (o, c2, afterGet (afterGet w))
          /\ requests (afterGet (afterGet w))
             = requests w ++ [githubMetaURL w; githubMetaURL w]
          /\ (forall m, FetchSuccess (nextAnswer (afterGet w)) m ->
                meta c2 = Some m)
          /\ (forall mode2 e2,
                FetchFailure (nextAnswer (afterGet w)) mode2 e2 ->
                meta c2 = None)).
Proof.
  intros Hv Hm Hf. rewrite (CheckIP_validated _ _ _ _ Hv).
  split; [exact (classify_failure _ _ _ _ _ Hm Hf) |].
  split; [reflexivity |].
  intros s2 ip2 Hv2. rewrite (CheckIP_validated _ _ _ _ Hv2).
  unfold classify. rewrite Hm.
  destruct (fetchResult (nextAnswer (afterGet w))) as [m | e2] eqn:Hr;
    do 2 eexists; (split; [reflexivity |]);
    (split; [cbn [requests afterGet githubMetaURL]; rewrite <- app_assoc;
             reflexivity |]); cbn [meta]; split.
  - intros m' Hok. rewrite (fetchResult_success _ _ Hok) in Hr. congruence.
  - intros mode2 e2 Hf2. rewrite (fetchResult_failure _ _ _ Hf2) in Hr.
    discriminate Hr.
  - intros m' Hok. rewrite (fetchResult_success _ _ Hok) in Hr.
    discriminate Hr.
  - intros mode2 e3 Hf2. exact Hm.
Qed.

(** ** Memoization (C3) *)

Lemma CheckIP_cached (s : string) (c : IPChecker) (w : World) (m : GitHubMeta) :
  meta c = Some m -> exists o, CheckIP s c w = (o, c, w).
Proof.
  intros Hm. destruct (validation_total s) as [[ip Hv] | [e Hr]].
  - rewrite (CheckIP_validated _ _ _ _ Hv). unfold classify. rewrite Hm. eauto.
  - rewrite (CheckIP_rejected _ _ _ _ Hr). eauto.
Qed.

Lemma runCalls_cached (inputs : list string) (c : IPChecker) (w : World)
    (m : GitHubMeta) :
  meta c = Some m -> exists os, runCalls inputs c w = (os, c, w).
Proof.
  intros Hm. induction inputs as [| s rest [os IH]]; cbn [runCalls]; [eauto |].
  destruct (CheckIP_cached s c w m Hm) as [o ->]. rewrite IH. eauto.
Qed.

(** What one call does to the checker and to the world. *)
Lemma CheckIP_step (s : string) (c : IPChecker) (w : World) :
  (exists o, CheckIP s c w = (o, c, w))
  \/ (meta c = None /\ exists o m,
        FetchSuccess (nextAnswer w) m
        /\ CheckIP s c w = (o, mkIPChecker (Some m), afterGet w))
  \/ (meta c = None /\ exists o mode e,
        FetchFailure (nextAnswer w) mode e
        /\ CheckIP s c w = (o, c, afterGet w)).
Proof.
  destruct (validation_total s) as [[ip Hv] | [e Hr]].
  - rewrite (CheckIP_validated _ _ _ _ Hv). unfold classify.
    destruct (meta c) as [m |] eqn:Hm; [left; eauto | right].
    destruct (fetchResult (nextAnswer w)) as [m | e] eqn:Hf; [left | right].
    + apply fetchResult_inl in Hf. eauto.
    + apply fetchResult_inr in Hf. destruct Hf as [mode Hf]. eauto 6.
  - left. rewrite (CheckIP_rejected _ _ _ _ Hr). eauto.
Qed.

Lemma Trace_afterGet (w : World) (c' : IPChecker) (w' : World) (k : nat) :
  (exists mode e, FetchFailure (nextAnswer w) mode e) ->
  Trace (afterGet w) c' w' k -> Trace w c' w' (S k).
Proof.
  intros Hfail (Hu & Hr & Hq & Hc). unfold Trace.
  cbn [afterGet githubMetaURL remote requests] in *.
  assert (Hshift : forall j,
             (List.length (requests w ++ [githubMetaURL w]) + j
              = List.length (requests w) + S j)%nat).
  { intros j. rewrite length_app. simpl. lia. }
  assert (Hfails : forall j, failsAt (afterGet w) j -> failsAt w (S j)).
  { intros j (mode & e & He). exists mode, e.
    cbn [afterGet githubMetaURL remote requests] in He.
    rewrite Hshift in He. exact He. }
  assert (H0 : failsAt w 0).
  { unfold failsAt. rewrite Nat.add_0_r. exact Hfail. }
  repeat split; try assumption.
  - rewrite Hq, <- app_assoc. reflexivity.
  - destruct Hc as [[Hm Hall] | (k0 & m & -> & Hm & Hok & Hall)].
    + left. split; [exact Hm |].
      intros [| j] Hj; [exact H0 |]. apply Hfails, Hall. lia.
    + right. exists (S k0), m. repeat split; try assumption.
      * rewrite Hshift in Hok. exact Hok.
      * intros [| j] Hj; [exact H0 |]. apply Hfails, Hall. lia.
Qed.

Lemma runCalls_trace (inputs : list string) (c : IPChecker) (w : World) :
  meta c = None ->
  exists k, Trace w (snd (fst (runCalls inputs c w)))
              (snd (runCalls inputs c w)) k.
Proof.
  revert c w. induction inputs as [| s rest IH]; intros c w Hm.
  - exists 0%nat. cbn. unfold Trace. rewrite app_nil_r.
    repeat split. left. split; [exact Hm |]. intros j Hj. lia.
  - cbn [runCalls].
    destruct (CheckIP_step s c w)
      as [[o ->] | [(_ & o & m & Hok & ->) | (_ & o & mode & e & Hbad & ->)]].
    + destruct (IH c w Hm) as [k Hk]. exists k.
      destruct (runCalls rest c w) as [[os c'] w']. exact Hk.
    + destruct (runCalls_cached rest (mkIPChecker (Some m)) (afterGet w) m
                  eq_refl) as [os ->].
      exists 1%nat. cbn [fst snd]. unfold Trace.
      cbn [afterGet githubMetaURL remote requests meta repeat].
      repeat split. right. exists 0%nat, m.
      rewrite Nat.add_0_r. repeat split; [exact Hok |]. intros j Hj. lia.
    + destruct (IH c (afterGet w) Hm) as [k Hk]. exists (S k).
      destruct (runCalls rest c (afterGet w)) as [[os c'] w'].
      cbn [fst snd] in *. apply Trace_afterGet; eauto.
Qed.

(** C3. On one instance, starting with nothing memoized, any sequence of
    calls sends GETs of which only the last can have succeeded: a range set
    is fetched at most once.  With a first fetch that succeeds, two
    sequential calls on validated addresses send exactly one GET, both are
    answered from the memoized range set, and no later call on the instance
    sends a GET or changes the cache. *)
Theorem C3_range_set_fetched_once
    (s1 s2 : string) (ip1 ip2 : net.IP) (w : World) (m : GitHubMeta) :
  Validated s1 ip1 -> Validated s2 ip2 ->
  FetchSuccess (nextAnswer w) m ->
  (exists c1 w1,
     CheckIP s1 NewIPChecker w = (checkRanges ip1 m, c1, w1)
     /\ CheckIP s2 c1 w1 = (checkRanges ip2 m, c1, w1)
     /\ meta c1 = Some m
     /\ requests w1 = requests w ++ [githubMetaURL w]
     /\ forall inputs, exists os, runCalls inputs c1 w1 = (os, c1, w1))
  /\ (forall inputs, exists k,
        Trace w (snd (fst (runCalls inputs NewIPChecker w)))
          (snd (runCalls inputs NewIPChecker w)) k).
Proof.
  intros Hv1 Hv2 Hok. split.
  - exists (mkIPChecker (Some m)), (afterGet w).
    rewrite (CheckIP_validated _ _ _ _ Hv1), (CheckIP_validated _ _ _ _ Hv2).
    unfold classify. cbn [meta NewIPChecker].
    rewrite (fetchResult_success _ _ Hok).
    repeat split. intros inputs. apply (runCalls_cached _ _ _ m). reflexivity.
  - intros inputs. apply runCalls_trace. reflexivity.
Qed.

(** ** Parsed addresses are sixteen bytes *)

Lemma update_nat_length (l : list Z) (i : nat) (v : Z) :
  List.length (update_nat l i v) = List.length l.
Proof.
  revert i. induction l as [| h t IH]; intros [| j]; simpl; auto.
Qed.

Lemma update_nat_Forall (P : Z -> Prop) (l : list Z) (i : nat) (v : Z) :
  P v -> Forall P l -> Forall P (update_nat l i v).
Proof.
  intros Hv. revert i. induction l as [| h t IH]; intros i Hl.
  - destruct i; constructor.
  - inversion Hl; subst. destruct i; simpl; constructor; auto.
Qed.

Lemma update_wf (n : nat) (l : list Z) (i v : Z) :
  octet v -> wf n l -> wf n (update l i v).
Proof.
  intros Hv [Hlen Hall]. unfold update. destruct (i <? 0); [split; auto |].
  split; [rewrite update_nat_length; exact Hlen |].
  apply update_nat_Forall; assumption.
Qed.

Lemma at_octet (l : list Z) (i : Z) : Forall octet l -> octet (at_ l i).
Proof.
  intros Hl. unfold at_. destruct (i <? 0); [unfold octet; lia |].
  destruct (nth_in_or_default (Z.to_nat i) l 0) as [Hin | ->].
  - rewrite Forall_forall in Hl. auto.
  - unfold octet. lia.
Qed.

Lemma isDigit_value (c : ascii) : isDigit c = true -> 0 <= code c - 48 <= 9.
Proof.
  unfold isDigit. intros H. apply andb_prop in H. destruct H as [H1 H2].
  apply Z.leb_le in H1. apply Z.leb_le in H2. lia.
Qed.

Lemma parseIPv4Fields_loop_wf (s : string) :
  forall prev val pos digLen fields f,
    0 <= val <= 255 -> wf 4 fields ->
    net.parseIPv4Fields_loop s prev val pos digLen fields = Some f ->
    wf 4 f.
Proof.
  induction s as [| c rest IH]; intros prev val pos digLen fields f Hval Hf;
    cbn [net.parseIPv4Fields_loop].
  - destruct (pos <? 3); [discriminate |].
    intros H. injection H as <-. apply update_wf; [unfold octet; lia | exact Hf].
  - destruct (isDigit c) eqn:Hd.
    + destruct ((digLen =? 1) && (val =? 0)); [discriminate |].
      destruct (val * 10 + (code c - 48) >? 255) eqn:Hgt; [discriminate |].
      apply IH; [| exact Hf].
      pose proof (isDigit_value c Hd). rewrite Z.gtb_ltb in Hgt.
      apply Z.ltb_ge in Hgt. lia.
    + destruct (isChar c "."); [| discriminate].
      destruct (_ || isEmpty rest); [discriminate |].
      destruct (pos =? 3); [discriminate |].
      apply IH; [lia |]. apply update_wf; [unfold octet; lia | exact Hf].
Qed.

Lemma parseIPv4Fields_wf (s : string) (f : list Z) :
  net.parseIPv4Fields s = Some f -> wf 4 f.
Proof.
  apply parseIPv4Fields_loop_wf; [lia |].
  split; [reflexivity |]. repeat constructor; unfold octet; lia.
Qed.

Lemma land_255_octet (x : Z) : octet (Z.land x 255).
Proof.
  change 255 with (Z.ones 8). rewrite Z.land_ones by lia.
  unfold octet. change 256 with (2 ^ 8). apply Z.mod_pos_bound. lia.
Qed.

Lemma parseIPv6_loop_wf (fuel : nat) :
  forall st st',
    wf 16 (net.ip6 st) -> net.parseIPv6_loop fuel st = Some st' ->
    wf 16 (net.ip6 st').
Proof.
  induction fuel as [| fuel IH]; intros [s i ip ellipsis] st' Hwf;
    cbn [net.parseIPv6_loop net.ip6] in *.
  - intros H. injection H as <-. exact Hwf.
  - destruct (negb (i <? 16)); [intros H; injection H as <-; exact Hwf |].
    destruct (net.hexGroup s 0 0) as [[[off acc] tail] |]; [| discriminate].
    destruct (off =? 0); [discriminate |].
    destruct (match tail with String c _ => isChar c "." | _ => false end).
    + destruct ((ellipsis <? 0) && negb (i =? 12)); [discriminate |].
      destruct (i + 4 >? 16); [discriminate |].
      destruct (net.parseIPv4Fields s) as [f |] eqn:Hf; [| discriminate].
      apply parseIPv4Fields_wf in Hf. destruct Hf as [_ Hf].
      intros H. injection H as <-. cbn [net.ip6].
      repeat apply update_wf; auto using at_octet.
    + assert (Hip : wf 16 (update (update ip i (Z.land (Z.shiftr acc 8) 255))
                             (i + 1) (Z.land acc 255))).
      { repeat apply update_wf; auto using land_255_octet. }
      destruct tail as [| c s1].
      * intros H. injection H as <-. exact Hip.
      * destruct (negb (isChar c ":")); [discriminate |].
        destruct s1 as [| c1 s2]; [discriminate |].
        destruct (isChar c1 ":").
        -- destruct (ellipsis >=? 0); [discriminate |].
           destruct (isEmpty s2).
           ++ intros H. injection H as <-. exact Hip.
           ++ apply IH. exact Hip.
        -- apply IH. exact Hip.
Qed.

Lemma expand_loop_wf (cnt : nat) :
  forall j n ip, wf 16 ip -> wf 16 (net.expand_loop cnt j n ip).
Proof.
  induction cnt as [| cnt IH]; intros j n ip Hwf; cbn [net.expand_loop].
  - exact Hwf.
  - apply IH. apply update_wf; [| exact Hwf]. apply at_octet, Hwf.
Qed.

Lemma clear_loop_wf (cnt : nat) :
  forall k ip, wf 16 ip -> wf 16 (net.clear_loop cnt k ip).
Proof.
  induction cnt as [| cnt IH]; intros k ip Hwf; cbn [net.clear_loop].
  - exact Hwf.
  - apply IH. apply update_wf; [unfold octet; lia | exact Hwf].
Qed.

Lemma zeros_wf : wf 16 (repeat 0 16).
Proof. split; [reflexivity |]. repeat constructor; unfold octet; lia. Qed.

Lemma parseIPv6_wf (s : string) (a : net.Addr) :
  net.parseIPv6 s = Some a -> wf 16 (net.As16 a) /\ net.Is4 a = false.
Proof.
  unfold net.parseIPv6.
  destruct (match net.cut "%" s with
            | Some (a0, z) => if isEmpty z then None else Some (a0, z)
            | None => Some (s, "")
            end) as [[s0 zone] |]; [| discriminate].
  destruct (match s0 with
            | String c0 (String c1 s') =>
                if isChar c0 ":" && isChar c1 ":" then (s', 0) else (s0, -1)
            | _ => (s0, -1)
            end) as [s1 ellipsis].
  destruct ((ellipsis =? 0) && isEmpty s1).
  { intros H. injection H as <-. split; [exact zeros_wf | reflexivity]. }
  destruct (net.parseIPv6_loop 8 (net.mkV6 s1 0 (repeat 0 16) ellipsis))
    as [[s2 i ip e2] |] eqn:Hloop; [| discriminate].
  apply parseIPv6_loop_wf in Hloop; [| exact zeros_wf]. cbn [net.ip6] in Hloop.
  destruct (negb (isEmpty s2)); [discriminate |].
  destruct (i <? 16).
  - destruct (e2 <? 0); [discriminate |].
    intros H. injection H as <-. split; [| reflexivity]. cbn [net.As16].
    apply clear_loop_wf, expand_loop_wf, Hloop.
  - destruct (e2 >=? 0); [discriminate |].
    intros H. injection H as <-. split; [exact Hloop | reflexivity].
Qed.

Lemma parseIPv4_wf (s : string) (a : net.Addr) :
  net.parseIPv4 s = Some a ->
  exists f, wf 4 f /\ a = net.mkAddr true (net.v4InV6Prefix ++ f) "".
Proof.
  unfold net.parseIPv4.
  destruct (net.parseIPv4Fields s) as [f |] eqn:Hf; [| discriminate].
  intros H. injection H as <-. exists f. split; [| reflexivity].
  exact (parseIPv4Fields_wf _ _ Hf).
Qed.

Lemma ParseAddr_cases (s : string) (a : net.Addr) :
  net.ParseAddr s = Some a -> net.parseIPv4 s = Some a \/ net.parseIPv6 s = Some a.
Proof.
  unfold net.ParseAddr. generalize s at 1 3 4 as whole. intros whole.
  induction s as [| c rest IH]; cbn [net.ParseAddr_scan]; [discriminate |].
  destruct (isChar c "."); [auto |].
  destruct (isChar c ":"); [auto |].
  destruct (isChar c "%"); [discriminate | exact IH].
Qed.

Lemma ParseAddr_wf (s : string) (a : net.Addr) :
  net.ParseAddr s = Some a -> wf 16 (net.As16 a).
Proof.
  intros H. apply ParseAddr_cases in H. destruct H as [H | H].
  - apply parseIPv4_wf in H. destruct H as (f & [Hlen Hall] & ->).
    cbn [net.As16]. split.
    + rewrite length_app, Hlen. reflexivity.
    + apply Forall_app. split; [| exact Hall].
      repeat constructor; unfold octet; lia.
  - apply parseIPv6_wf in H. apply H.
Qed.

Lemma ParseIP_wf (s : string) (ip : net.IP) :
  net.ParseIP s = Some ip -> wf 16 ip.
Proof.
  unfold net.ParseIP. destruct (net.ParseAddr s) as [a |] eqn:Ha; [| discriminate].
  destruct (isEmpty (net.Zone a)); [| discriminate].
  intros H. injection H as <-. exact (ParseAddr_wf _ _ Ha).
Qed.

(** ** The IPv4 constraint *)

Ltac sixteen ip Hlen :=
  do 16 (destruct ip as [| ? ip]; [discriminate Hlen |]);
  destruct ip; [| discriminate Hlen].

(** On sixteen bytes [To4] succeeds exactly on the IPv4-mapped prefix. *)
Lemma To4_sixteen (ip : net.IP) :
  List.length ip = 16%nat ->
  net.To4 ip = if bytesEqual (firstn 12 ip) net.v4InV6Prefix
               then Some (skipn 12 ip) else None.
Proof.
  intros Hlen. sixteen ip Hlen. cbv -[Z.eqb].
  change (16 =? 4) with false. change (16 =? 16) with true. cbv iota.
  repeat match goal with
         | |- context [?x =? ?y] => destruct (x =? y); try reflexivity
         end.
Qed.

Lemma To4_wf (ip16 ip : net.IP) :
  wf 16 ip16 -> net.To4 ip16 = Some ip -> wf 4 ip.
Proof.
  intros [Hlen Hall] H. rewrite (To4_sixteen _ Hlen) in H.
  destruct (bytesEqual _ _); [| discriminate].
  assert (E : ip = skipn 12 ip16) by congruence. clear H. subst ip.
  split.
  - rewrite length_skipn, Hlen. reflexivity.
  - rewrite <- (firstn_skipn 12 ip16) in Hall. apply Forall_app in Hall. apply Hall.
Qed.

Lemma bytesEqual_eq (a b : list Z) : bytesEqual a b = true <-> a = b.
Proof.
  revert b. induction a as [| x a IH]; intros [| y b]; simpl;
    try (split; [discriminate | discriminate]); [tauto |].
  rewrite andb_true_iff, Z.eqb_eq, IH. split.
  - intros [-> ->]. reflexivity.
  - intros H. injection H as -> ->. auto.
Qed.

(** ** Validation errors come before the fetch (C6) *)

(** C6. For every input refused by validation, as malformed, as not IPv4
    or as not routable, [CheckIP] returns no result and that validation
    error, the checker (its cache) and the world (the requests sent) are
    what they were: no GET is sent. *)
Theorem C6_validation_errors_precede_fetch
    (s : string) (e : error) (c : IPChecker) (w : World) :
  Rejected s e ->
  CheckIP s c w = (Return None (Some e), c, w)
  /\ (e = errMalformed \/ e = errNotIPv4 \/ e = errNotRoutable)
  /\ meta (snd (fst (CheckIP s c w))) = meta c
  /\ requests (snd (CheckIP s c w)) = requests w.
Proof.
  intros Hr. rewrite (CheckIP_rejected _ _ _ _ Hr).
  repeat split. destruct Hr; auto.
Qed.

(** ** IPv6 literals (C8) *)



(** ** Dotted-decimal text *)

Lemma octet_cases (P : Z -> Prop) :
  (forall n, (n < 256)%nat -> P (Z.of_nat n)) -> forall x, octet x -> P x.
Proof.
  intros H x Hx. rewrite <- (Z2Nat.id x) by (unfold octet in Hx; lia).
  apply H. unfold octet in Hx. lia.
Qed.

Lemma octet_forallb (f : Z -> bool) :
  forallb f (map Z.of_nat (seq 0 256)) = true ->
  forall x, octet x -> f x = true.
Proof.
  intros H. apply octet_cases. intros n Hn.
  rewrite forallb_forall in H. apply H. apply in_map, in_seq. lia.
Qed.

Ltac each_octet tac :=
  match goal with
  | |- forall x, octet x -> @?P x => apply (octet_cases P)
  end;
  let n := fresh "n" in
  let Hn := fresh "Hn" in
  intros n Hn;
  do 256 (destruct n as [| n]; [tac |]); exfalso; lia.

(** Reading the digits of an octet leaves its value in [val]. *)
Lemma parseIPv4Fields_digits (a : Z) :
  octet a ->
  forall tail prev pos fields,
    net.parseIPv4Fields_loop (itoa a ++ tail) prev 0 pos 0 fields
    = net.parseIPv4Fields_loop tail (Some (lastChar (itoa a))) a pos
        (strlen (itoa a)) fields.
Proof.
  revert a. each_octet ltac:(intros; reflexivity).
Qed.

Lemma lastChar_itoa_digit (a : Z) :
  octet a -> isDigit (lastChar (itoa a)) && negb (isEmpty (itoa a)) = true.
Proof.
  revert a.
  apply (octet_forallb
           (fun a => isDigit (lastChar (itoa a)) && negb (isEmpty (itoa a)))).
  vm_compute. reflexivity.
Qed.

Lemma ParseAddr_scan_digits (a : Z) :
  octet a ->
  forall whole tail,
    net.ParseAddr_scan whole (itoa a ++ String "." tail) = net.parseIPv4 whole.
Proof.
  revert a. each_octet ltac:(intros; reflexivity).
Qed.

Lemma digit_not_dot (c : ascii) : isDigit c = true -> isChar c "." = false.
Proof.
  destruct c as [[] [] [] [] [] [] [] []]; vm_compute; congruence.
Qed.

Lemma parseIPv4Fields_dot (last : ascii) (tail : string)
    (val pos n : Z) (fields : list Z) :
  isDigit last = true -> isEmpty tail = false -> (pos =? 3) = false ->
  net.parseIPv4Fields_loop (String "." tail) (Some last) val pos n fields
  = net.parseIPv4Fields_loop tail (Some "."%char) 0 (pos + 1) 0
      (update fields pos val).
Proof.
  intros Hd He Hp. cbn [net.parseIPv4Fields_loop].
  change (isDigit ".") with false. change (isChar "." ".") with true.
  cbv iota. rewrite (digit_not_dot _ Hd), He, Hp. reflexivity.
Qed.

Lemma isEmpty_itoa_app (a : Z) (tail : string) :
  octet a -> isEmpty (itoa a ++ tail) = false.
Proof.
  intros Ha. pose proof (lastChar_itoa_digit a Ha) as H.
  apply andb_prop in H. destruct H as [_ H].
  destruct (itoa a); [discriminate H | reflexivity].
Qed.

Lemma append_nil_r (s : string) : (s ++ "")%string = s.
Proof. induction s as [| c s IH]; simpl; [| rewrite IH]; reflexivity. Qed.

(** The text [a.b.c.d] parses to the address [a.b.c.d]. *)
Lemma ParseIP_dotted (a b c d : Z) :
  octet a -> octet b -> octet c -> octet d ->
  net.ParseIP (dotted a b c d) = Some (net.IPv4 a b c d).
Proof.
  intros Ha Hb Hc Hd.
  assert (Hdig : forall x, octet x -> isDigit (lastChar (itoa x)) = true).
  { intros x Hx. pose proof (lastChar_itoa_digit x Hx) as H.
    apply andb_prop in H. apply H. }
  unfold net.ParseIP, net.ParseAddr, dotted.
  rewrite <- (append_nil_r (itoa d)).
  change ("." ++ ?s)%string with (String "." s).
  rewrite (ParseAddr_scan_digits a Ha).
  unfold net.parseIPv4, net.parseIPv4Fields.
  rewrite (parseIPv4Fields_digits a Ha).
  rewrite parseIPv4Fields_dot
    by (auto using isEmpty_itoa_app; reflexivity).
  change ("." ++ ?s)%string with (String "." s).
  rewrite (parseIPv4Fields_digits b Hb).
  rewrite parseIPv4Fields_dot
    by (auto using isEmpty_itoa_app; reflexivity).
  change ("." ++ ?s)%string with (String "." s).
  rewrite (parseIPv4Fields_digits c Hc).
  rewrite parseIPv4Fields_dot
    by (auto using isEmpty_itoa_app; reflexivity).
  rewrite (parseIPv4Fields_digits d Hd).
  reflexivity.
Qed.

Lemma To4_IPv4 (a b c d : Z) : net.To4 (net.IPv4 a b c d) = Some [a; b; c; d].
Proof. reflexivity. Qed.

(** ** The routability constraint (C5) *)

Lemma To4_four (a b c d : Z) : net.To4 [a; b; c; d] = Some [a; b; c; d].
Proof. reflexivity. Qed.

Lemma land_240_16 (b : Z) : 16 <= b <= 31 -> Z.land b 240 = 16.
Proof.
  intros H.
  assert (E : b = 16 \/ b = 17 \/ b = 18 \/ b = 19 \/ b = 20 \/ b = 21
              \/ b = 22 \/ b = 23 \/ b = 24 \/ b = 25 \/ b = 26 \/ b = 27
              \/ b = 28 \/ b = 29 \/ b = 30 \/ b = 31) by lia.
  repeat (destruct E as [-> | E]; [reflexivity |]). subst. reflexivity.
Qed.

Lemma land_240_224 (a : Z) : 224 <= a <= 239 -> Z.land a 240 = 224.
Proof.
  intros H.
  assert (E : a = 224 \/ a = 225 \/ a = 226 \/ a = 227 \/ a = 228 \/ a = 229
              \/ a = 230 \/ a = 231 \/ a = 232 \/ a = 233 \/ a = 234
              \/ a = 235 \/ a = 236 \/ a = 237 \/ a = 238 \/ a = 239) by lia.
  repeat (destruct E as [-> | E]; [reflexivity |]). subst. reflexivity.
Qed.

Lemma IsPrivate_four (a b c d : Z) :
  net.IsPrivate [a; b; c; d]
  = (a =? 10) || ((a =? 172) && (Z.land b 240 =? 16))
    || ((a =? 192) && (b =? 168)).
Proof. reflexivity. Qed.

Lemma IsLoopback_four (a b c d : Z) : net.IsLoopback [a; b; c; d] = (a =? 127).
Proof. reflexivity. Qed.

Lemma IsMulticast_four (a b c d : Z) :
  net.IsMulticast [a; b; c; d] = (Z.land a 240 =? 224).
Proof. reflexivity. Qed.

Lemma IsUnspecified_four (a b c d : Z) :
  net.IsUnspecified [a; b; c; d]
  = (a =? 0) && ((b =? 0) && ((c =? 0) && ((d =? 0) && true))) || false.
Proof. reflexivity. Qed.

Lemma isBroadcastAddress_four (a b c d : Z) :
  isBroadcastAddress [a; b; c; d]
  = (a =? 255) && (b =? 255) && (c =? 255) && (d =? 255).
Proof.
  cbn [isBroadcastAddress].
  destruct (a =? 255), (b =? 255), (c =? 255), (d =? 255); reflexivity.
Qed.

Lemma nonRoutable_class (a b c d : Z) :
  NotRoutableAddr a b c d -> nonRoutable [a; b; c; d] = true.
Proof.
  intros H. unfold nonRoutable.
  rewrite IsPrivate_four, IsLoopback_four, IsMulticast_four,
    IsUnspecified_four, isBroadcastAddress_four.
  destruct H as [b c d | b c d Hb | c d | b c d | | a b c d Ha |].
  - reflexivity.
  - rewrite (land_240_16 _ Hb). reflexivity.
  - reflexivity.
  - reflexivity.
  - reflexivity.
  - rewrite (land_240_224 _ Ha). rewrite Z.eqb_refl.
    rewrite !orb_true_r. reflexivity.
  - reflexivity.
Qed.

Lemma land_240_16_inv (b : Z) :
  octet b -> Z.land b 240 = 16 -> 16 <= b <= 31.
Proof.
  intros Hb H.
  assert (E : implb (Z.land b 240 =? 16) ((16 <=? b) && (b <=? 31)) = true).
  { revert b Hb H. intros b Hb _. revert b Hb.
    apply (octet_forallb
             (fun b => implb (Z.land b 240 =? 16) ((16 <=? b) && (b <=? 31)))).
    vm_compute. reflexivity. }
  apply Z.eqb_eq in H. rewrite H in E. cbn [implb] in E.
  apply andb_prop in E. destruct E as [E1 E2].
  apply Z.leb_le in E1. apply Z.leb_le in E2. lia.
Qed.

Lemma land_240_224_inv (a : Z) :
  octet a -> Z.land a 240 = 224 -> 224 <= a <= 239.
Proof.
  intros Ha H.
  assert (E : implb (Z.land a 240 =? 224) ((224 <=? a) && (a <=? 239)) = true).
  { revert a Ha H. intros a Ha _. revert a Ha.
    apply (octet_forallb
             (fun a => implb (Z.land a 240 =? 224) ((224 <=? a) && (a <=? 239)))).
    vm_compute. reflexivity. }
  apply Z.eqb_eq in H. rewrite H in E. cbn [implb] in E.
  apply andb_prop in E. destruct E as [E1 E2].
  apply Z.leb_le in E1. apply Z.leb_le in E2. lia.
Qed.

(** The third test of [CheckIP] refuses exactly the addresses of the seven
    classes. *)
Lemma nonRoutable_iff (a b c d : Z) :
  octet a -> octet b ->
  (nonRoutable [a; b; c; d] = true <-> NotRoutableAddr a b c d).
Proof.
  intros Ha Hb. split; [| apply nonRoutable_class].
  unfold nonRoutable.
  rewrite IsPrivate_four, IsLoopback_four, IsMulticast_four,
    IsUnspecified_four, isBroadcastAddress_four.
  rewrite !orb_true_iff, !andb_true_iff, !Z.eqb_eq.
  intros [[[[[[-> | [-> H]] | [-> ->]] | ->] | H] | H] | H].
  - constructor.
  - constructor. apply land_240_16_inv; assumption.
  - constructor.
  - constructor.
  - destruct H as [(-> & -> & -> & -> & _) | H]; [constructor | discriminate H].
  - apply InMulticast. apply land_240_224_inv; assumption.
  - destruct H as [[[-> ->] ->] ->]. apply IsAllOnes.
Qed.

(** Validation accepts the text [a.b.c.d] of every other address. *)
Lemma Validated_dotted (a b c d : Z) :
  octet a -> octet b -> octet c -> octet d ->
  ~ NotRoutableAddr a b c d ->
  Validated (dotted a b c d) [a; b; c; d].
Proof.
  intros Ha Hb Hc Hd Hn. exists (net.IPv4 a b c d).
  split; [apply ParseIP_dotted; assumption |].
  split; [apply To4_IPv4 |].
  destruct (nonRoutable [a; b; c; d]) eqn:E; [| reflexivity].
  exfalso. apply Hn. apply nonRoutable_iff; assumption.
Qed.

(** C5. Every IPv4 address [a.b.c.d] of a private-use block (10.0.0.0/8,
    172.16.0.0/12, 192.168.0.0/16), of the loopback range 127.0.0.0/8,
    equal to 0.0.0.0, of the multicast range 224.0.0.0/4 or equal to
    255.255.255.255 is refused, as the text [a.b.c.d] and as any other text
    that parses to it: [CheckIP] returns no result and the error "IP
    address must be a public, routable address", and leaves the checker
    and the world as they were. *)
Theorem C5_non_routable_rejected
    (a b c d : Z) (cc : IPChecker) (w : World) :
  octet a -> octet b -> octet c -> octet d ->
  NotRoutableAddr a b c d ->
  CheckIP (dotted a b c d) cc w = (Return None (Some errNotRoutable), cc, w)
  /\ forall s ip16,
       net.ParseIP s = Some ip16 -> net.To4 ip16 = Some [a; b; c; d] ->
       CheckIP s cc w = (Return None (Some errNotRoutable), cc, w).
Proof.
  intros Ha Hb Hc Hd Hclass.
  assert (H : forall s ip16,
             net.ParseIP s = Some ip16 -> net.To4 ip16 = Some [a; b; c; d] ->
             CheckIP s cc w = (Return None (Some errNotRoutable), cc, w)).
  { intros s ip16 Hp H4. apply CheckIP_rejected.
    apply (RejNotRoutable _ ip16 [a; b; c; d]); auto using nonRoutable_class. }
  split; [| exact H].
  apply (H _ (net.IPv4 a b c d)); [apply ParseIP_dotted; assumption |].
  apply To4_IPv4.
Qed.

(** ** Objects with missing or extra keys (C10) *)











(** ** The test cases of the repository, run on the embedding *)

Example test_valid_github_ip :
  outcomeOf (CheckIP "192.30.252.1" NewIPChecker successWorld)
  = Return (Some (mkCheckResult true "Hooks" "192.30.252.0/22")) None.
Proof. vm_compute. reflexivity. Qed.

Example test_non_github_ip :
  outcomeOf (CheckIP "8.8.8.8" NewIPChecker successWorld)
  = Return (Some (mkCheckResult false "" "")) None.
Proof. vm_compute. reflexivity. Qed.

Example test_invalid_ip_format :
  CheckIP "invalid-ip" NewIPChecker successWorld
  = (Return None (Some errMalformed), NewIPChecker, successWorld).
Proof. reflexivity. Qed.

Example test_private_ip :
  CheckIP "192.168.1.1" NewIPChecker successWorld
  = (Return None (Some errNotRoutable), NewIPChecker, successWorld).
Proof. reflexivity. Qed.

Example test_ipv6_address :
  CheckIP "2001:db8::1" NewIPChecker successWorld
  = (Return None (Some errNotIPv4), NewIPChecker, successWorld).
Proof. reflexivity. Qed.

Example test_broadcast_address :
  CheckIP "255.255.255.255" NewIPChecker successWorld
  = (Return None (Some errNotRoutable), NewIPChecker, successWorld).
Proof. reflexivity. Qed.

Example test_api_server_error :
  outcomeOf (CheckIP "8.8.8.8" NewIPChecker errorWorld)
  = Return None (Some (surfaced (errBadStatus 500))).
Proof. vm_compute. reflexivity. Qed.

Example test_invalid_json_response :
  outcomeOf (CheckIP "8.8.8.8" NewIPChecker invalidJSONWorld)
  = Return None
      (Some (surfaced
               (errDecode
                  (errorString
                     "invalid character 'i' looking for beginning of value")))).
Proof. vm_compute. reflexivity. Qed.

Example test_network_error :
  outcomeOf (CheckIP "8.8.8.8" NewIPChecker failingWorld)
  = Return None
      (Some (surfaced (errTransport (errorString "failed to fetch GitHub meta")))).
Proof. vm_compute. reflexivity. Qed.

Example test_invalid_cidr_format :
  outcomeOf (CheckIP "192.30.252.1" NewIPChecker invalidCIDRWorld)
  = Return (Some (mkCheckResult true "API" "192.30.252.0/22")) None.
Proof. vm_compute. reflexivity. Qed.

Example test_valid_ip_found_after_invalid_cidrs :
  outcomeOf (CheckIP "192.30.252.1" NewIPChecker mixedCIDRWorld)
  = Return (Some (mkCheckResult true "Git" "192.30.252.0/22")) None.
Proof. vm_compute. reflexivity. Qed.

(** ** Instances of the theorems *)

Ltac by_computation := vm_compute; reflexivity.

Ltac validated_as ip16 := exists ip16; repeat split; by_computation.

Lemma C1_witness :
  Validated "192.30.252.1" [192; 30; 252; 1]
  /\ Available NewIPChecker invalidCIDRWorld invalidCIDRMeta
  /\ outcomeOf (CheckIP "192.30.252.1" NewIPChecker invalidCIDRWorld)
     = Return (Some (mkCheckResult true "API" "192.30.252.0/22")) None.
Proof.
  assert (Hv : Validated "192.30.252.1" [192; 30; 252; 1])
    by validated_as (net.IPv4 192 30 252 1).
  assert (Ha : Available NewIPChecker invalidCIDRWorld invalidCIDRMeta)
    by (apply Fetched; [reflexivity | constructor; by_computation]).
  split; [exact Hv |]. split; [exact Ha |].
  destruct (C1_first_match_in_declared_order _ _ _ _ _ Hv Ha) as (_ & H & _).
  apply H.
  exists [("Hooks", "invalid-cidr"); ("Web", "not-a-cidr")],
         [("Git", "192.30.252.0/22")].
  split; [reflexivity |]. split; [by_computation |].
  repeat constructor.
Defined.

Lemma C2_witness :
  Validated "192.30.252.1" [192; 30; 252; 1]
  /\ Available NewIPChecker invalidCIDRWorld invalidCIDRMeta
  /\ outcomeOf (CheckIP "192.30.252.1" NewIPChecker invalidCIDRWorld)
     = checkRanges [192; 30; 252; 1] (cleanMeta invalidCIDRMeta)
  /\ cleanMeta invalidCIDRMeta
     = mkGitHubMeta [] [] ["192.30.252.0/22"] ["192.30.252.0/22"]
         [] [] [] [] [] [].
Proof.
  assert (Hv : Validated "192.30.252.1" [192; 30; 252; 1])
    by validated_as (net.IPv4 192 30 252 1).
  assert (Ha : Available NewIPChecker invalidCIDRWorld invalidCIDRMeta)
    by (apply Fetched; [reflexivity | constructor; by_computation]).
  split; [exact Hv |]. split; [exact Ha |].
  destruct (C2_malformed_entries_skipped _ _ _ _ _ Hv Ha) as (_ & H & _).
  split; [exact H | by_computation].
Defined.

Lemma C3_witness :
  Validated "192.30.252.1" [192; 30; 252; 1]
  /\ Validated "8.8.8.8" [8; 8; 8; 8]
  /\ FetchSuccess (nextAnswer successWorld) successMeta
  /\ exists c1 w1,
       CheckIP "192.30.252.1" NewIPChecker successWorld
         = (checkRanges [192; 30; 252; 1] successMeta, c1, w1)
       /\ CheckIP "8.8.8.8" c1 w1
          = (checkRanges [8; 8; 8; 8] successMeta, c1, w1)
       /\ requests w1 = requests successWorld ++ [githubMetaURL successWorld].
Proof.
  assert (Hv1 : Validated "192.30.252.1" [192; 30; 252; 1])
    by validated_as (net.IPv4 192 30 252 1).
  assert (Hv2 : Validated "8.8.8.8" [8; 8; 8; 8])
    by validated_as (net.IPv4 8 8 8 8).
  assert (Hok : FetchSuccess (nextAnswer successWorld) successMeta)
    by (constructor; by_computation).
  split; [exact Hv1 |]. split; [exact Hv2 |]. split; [exact Hok |].
  destruct (C3_range_set_fetched_once _ _ _ _ _ _ Hv1 Hv2 Hok)
    as ((c1 & w1 & H1 & H2 & _ & Hq & _) & _).
  exists c1, w1. auto.
Defined.

Lemma C4_witness :
  Validated "8.8.8.8" [8; 8; 8; 8]
  /\ FetchFailure (nextAnswer errorWorld) (BadStatus 500) (errBadStatus 500)
  /\ outcomeOf (CheckIP "8.8.8.8" NewIPChecker errorWorld)
     = Return None (Some (surfaced (errBadStatus 500)))
  /\ Error (surfaced (errBadStatus 500))
     = "failed to fetch GitHub meta: GitHub API returned status code 500".
Proof.
  assert (Hv : Validated "8.8.8.8" [8; 8; 8; 8])
    by validated_as (net.IPv4 8 8 8 8).
  assert (Hf : FetchFailure (nextAnswer errorWorld) (BadStatus 500)
                 (errBadStatus 500)).
  { apply (FailBadStatus 500). discriminate. }
  split; [exact Hv |]. split; [exact Hf |].
  destruct (C4_fetch_failures_surface_distinctly
              "8.8.8.8" _ NewIPChecker errorWorld _ _ Hv eq_refl Hf)
    as (H1 & _ & H2 & _).
  split; [exact H1 | exact (H2 eq_refl)].
Defined.

Lemma C5_witness :
  NotRoutableAddr 192 168 1 1
  /\ dotted 192 168 1 1 = "192.168.1.1"
  /\ CheckIP "192.168.1.1" NewIPChecker successWorld
     = (Return None (Some errNotRoutable), NewIPChecker, successWorld)
  /\ CheckIP "::ffff:192.168.1.1" NewIPChecker successWorld
     = (Return None (Some errNotRoutable), NewIPChecker, successWorld).
Proof.
  assert (Hc : NotRoutableAddr 192 168 1 1) by constructor.
  assert (Ho : forall x, (0 <=? x) && (x <? 256) = true -> octet x).
  { intros x H. apply andb_prop in H. destruct H as [H1 H2].
    apply Z.leb_le in H1. apply Z.ltb_lt in H2. split; assumption. }
  destruct (C5_non_routable_rejected 192 168 1 1 NewIPChecker successWorld
              (Ho 192 eq_refl) (Ho 168 eq_refl) (Ho 1 eq_refl) (Ho 1 eq_refl)
              Hc)
    as [H1 H2].
  split; [exact Hc |]. split; [reflexivity |]. split; [exact H1 |].
  apply (H2 _ (net.IPv4 192 168 1 1)); by_computation.
Defined.

Lemma C6_witness :
  Rejected "invalid-ip" errMalformed
  /\ CheckIP "invalid-ip" NewIPChecker successWorld
     = (Return None (Some errMalformed), NewIPChecker, successWorld).
Proof.
  assert (Hr : Rejected "invalid-ip" errMalformed).
  { apply RejMalformed. by_computation. }
  split; [exact Hr |].
  exact (proj1 (C6_validation_errors_precede_fetch
                  _ _ NewIPChecker successWorld Hr)).
Defined.

Lemma C7_witness :
  Validated "8.8.8.8" [8; 8; 8; 8]
  /\ Available NewIPChecker successWorld successMeta
  /\ outcomeOf (CheckIP "8.8.8.8" NewIPChecker successWorld)
     = Return (Some (mkCheckResult false "" "")) None.
Proof.
  assert (Hv : Validated "8.8.8.8" [8; 8; 8; 8])
    by validated_as (net.IPv4 8 8 8 8).
  assert (Ha : Available NewIPChecker successWorld successMeta)
    by (apply Fetched; [reflexivity | constructor; by_computation]).
  split; [exact Hv |]. split; [exact Ha |].
  apply (C7_no_match_is_negative_result _ _ _ _ _ Hv Ha).
  intros name cidr Hin. cbn in Hin.
  repeat (destruct Hin as [Hin | Hin];
          [injection Hin as _ <-; by_computation |]).
  destruct Hin.
Defined.



Lemma C9_witness :
  Validated "8.8.8.8" [8; 8; 8; 8]
  /\ FetchFailure (nextAnswer errorWorld) (BadStatus 500) (errBadStatus 500)
  /\ CheckIP "8.8.8.8" NewIPChecker errorWorld
     = (Return None (Some (surfaced (errBadStatus 500))), NewIPChecker,
        afterGet errorWorld)
  /\ requests (afterGet errorWorld) = [metaURL].
Proof.
  assert (Hv : Validated "8.8.8.8" [8; 8; 8; 8])
    by validated_as (net.IPv4 8 8 8 8).
  assert (Hf : FetchFailure (nextAnswer errorWorld) (BadStatus 500)
                 (errBadStatus 500)).
  { apply (FailBadStatus 500). discriminate. }
  split; [exact Hv |]. split; [exact Hf |].
  destruct (C9_failed_fetch_leaves_cache_unset
              "8.8.8.8" _ NewIPChecker errorWorld _ _ Hv eq_refl Hf)
    as (H1 & H2 & _).
  split; [exact H1 | exact H2].
Defined.


(** * Further properties of the code *)

(** ** Every call of [CheckIP] *)

Lemma Validated_unique (s : string) (ip ip' : net.IP) :
  Validated s ip -> Validated s ip' -> ip = ip'.
Proof.
  intros (a & Ha & H4 & _) (a' & Ha' & H4' & _). congruence.
Qed.

Lemma FetchSuccess_unique (r : GetResult) (m m' : GitHubMeta) :
  FetchSuccess r m -> FetchSuccess r m' -> m = m'.
Proof.
  intros H H'. apply fetchResult_success in H. apply fetchResult_success in H'.
  congruence.
Qed.

Lemma FetchSuccess_not_failure (r : GetResult) (m : GitHubMeta)
    (mode : Mode) (e : error) :
  FetchSuccess r m -> FetchFailure r mode e -> False.
Proof.
  intros H H'. apply fetchResult_success in H.
  apply fetchResult_failure in H'. congruence.
Qed.

Lemma checkRanges_cases (ip : net.IP) (m : GitHubMeta) :
  (exists name cidr,
     FirstMatch ip (entries m) name cidr
     /\ checkRanges ip m = Return (Some (mkCheckResult true name cidr)) None)
  \/ ((forall name cidr, In (name, cidr) (entries m) -> matches ip cidr = false)
      /\ checkRanges ip m = Return (Some (mkCheckResult false "" "")) None).
Proof.
  rewrite checkRanges_firstHit.
  destruct (firstHit ip (entries m)) as [[name cidr] |] eqn:Hh.
  - left. exists name, cidr. split; [| reflexivity].
    apply firstHit_FirstMatch. exact Hh.
  - right. split; [| reflexivity]. apply firstHit_none. exact Hh.
Qed.

Lemma CheckIP_Checks (s : string) (c : IPChecker) (w : World) :
  Checks s c w (fst (fst (CheckIP s c w))) (snd (fst (CheckIP s c w)))
    (snd (CheckIP s c w)).
Proof.
  destruct (validation_total s) as [[ip Hv] | [e Hr]].
  - rewrite (CheckIP_validated _ _ _ _ Hv). unfold classify.
    destruct (meta c) as [m |] eqn:Hm.
    + cbn [fst snd].
      destruct (checkRanges_cases ip m) as [(name & cidr & Hf & ->) | [Hn ->]].
      * apply (ChecksMember _ _ _ ip m); auto. constructor. exact Hm.
      * apply (ChecksNotMember _ _ _ ip m); auto. constructor. exact Hm.
    + destruct (fetchResult (nextAnswer w)) as [m | e] eqn:Hf; cbn [fst snd].
      * apply fetchResult_inl in Hf.
        destruct (checkRanges_cases ip m) as [(name & cidr & Hfm & ->) | [Hn ->]].
        -- apply (ChecksMember _ _ _ ip m); auto. constructor; assumption.
        -- apply (ChecksNotMember _ _ _ ip m); auto. constructor; assumption.
      * apply fetchResult_inr in Hf. destruct Hf as [mode Hf].
        apply (ChecksFetchFailed _ _ _ ip mode); assumption.
  - rewrite (CheckIP_rejected _ _ _ _ Hr). cbn [fst snd]. constructor. exact Hr.
Qed.

(** X1. Every call of [CheckIP] goes one of four ways: the text is refused
    by validation (that error, nothing changed); the address is validated,
    nothing is memoized and the fetch fails (the fetch error wrapped, one
    GET, cache still unset); or a range set is at hand, memoized or just
    fetched, and the call returns the first match, or the negative result
    when no entry matches.  It returns a result or an error, never both,
    never neither, and never panics. *)
Theorem X1_CheckIP_four_ways (s : string) (c : IPChecker) (w : World) :
  Checks s c w (fst (fst (CheckIP s c w))) (snd (fst (CheckIP s c w)))
    (snd (CheckIP s c w)).
Proof. exact (CheckIP_Checks s c w). Qed.

(** ** The verdict of an invocation *)

Lemma Rejected_unique (s : string) (e e' : error) :
  Rejected s e -> Rejected s e' -> e = e'.
Proof.
  intros H H'.
  destruct H as [Hp | a Hp H4 | a ip Hp H4 Hr];
    destruct H' as [Hp' | a' Hp' H4' | a' ip' Hp' H4' Hr'];
    try reflexivity; congruence.
Qed.

Lemma FirstMatch_unique (ip : net.IP) (es : list (string * string))
    (n n' c c' : string) :
  FirstMatch ip es n c -> FirstMatch ip es n' c' -> n = n' /\ c = c'.
Proof.
  intros H H'. apply firstHit_FirstMatch in H. apply firstHit_FirstMatch in H'.
  rewrite H in H'. injection H' as -> ->. auto.
Qed.

Lemma FirstMatch_matches (ip : net.IP) (es : list (string * string))
    (n c : string) :
  FirstMatch ip es n c -> In (n, c) es /\ matches ip c = true.
Proof.
  intros (pre & post & -> & Hm & _). split; [| exact Hm].
  apply in_or_app. right. left. reflexivity.
Qed.

Lemma Judged_total (s : string) (w : World) : exists v, Judged s w v.
Proof.
  destruct (validation_total s) as [[ip Hv] | [e Hr]].
  - destruct (fetchResult (nextAnswer w)) as [m | e] eqn:Hf.
    + apply fetchResult_inl in Hf.
      destruct (checkRanges_cases ip m) as [(name & cidr & Hfm & _) | [Hn _]].
      * exists (IsMember name cidr). apply (JMember _ _ ip m); assumption.
      * exists IsNotMember. apply (JNotMember _ _ ip m); assumption.
    + apply fetchResult_inr in Hf. destruct Hf as [mode Hf].
      exists (IsUnavailable e). apply (JUnavailable _ _ ip mode); assumption.
  - exists (IsRejected e). constructor. exact Hr.
Qed.

Lemma Judged_functional (s : string) (w : World) (v v' : Verdict) :
  Judged s w v -> Judged s w v' -> v = v'.
Proof.
  intros H H'.
  destruct H as [e Hr | ip mode e Hv Hf | ip m name cidr Hv Hs Hfm | ip m Hv Hs Hn];
    destruct H' as [e' Hr' | ip' mode' e' Hv' Hf' | ip' m' name' cidr' Hv' Hs' Hfm'
                   | ip' m' Hv' Hs' Hn'];
    try reflexivity;
    try (exfalso; eapply validation_exclusive; eassumption);
    try (exfalso; eapply FetchSuccess_not_failure; eassumption).
  - f_equal. eapply Rejected_unique; eassumption.
  - apply fetchResult_failure in Hf. apply fetchResult_failure in Hf'.
    congruence.
  - pose proof (Validated_unique _ _ _ Hv Hv'). subst ip'.
    pose proof (FetchSuccess_unique _ _ _ Hs Hs'). subst m'.
    destruct (FirstMatch_unique _ _ _ _ _ _ Hfm Hfm') as [-> ->]. reflexivity.
  - exfalso. pose proof (Validated_unique _ _ _ Hv Hv'). subst ip'.
    pose proof (FetchSuccess_unique _ _ _ Hs Hs'). subst m'.
    apply FirstMatch_matches in Hfm. destruct Hfm as [Hin Hm].
    rewrite (Hn' _ _ Hin) in Hm. discriminate.
  - exfalso. pose proof (Validated_unique _ _ _ Hv Hv'). subst ip'.
    pose proof (FetchSuccess_unique _ _ _ Hs Hs'). subst m'.
    apply FirstMatch_matches in Hfm'. destruct Hfm' as [Hin Hm].
    rewrite (Hn _ _ Hin) in Hm. discriminate.
Qed.

(** What [CheckIP] on a fresh checker returns on each verdict. *)
Lemma CheckIP_fresh_verdict (s : string) (w : World) (v : Verdict) :
  Judged s w v ->
  exists c',
    CheckIP s NewIPChecker w
    = (match v with
       | IsMember name cidr => Return (Some (mkCheckResult true name cidr)) None
       | IsNotMember => Return (Some (mkCheckResult false "" "")) None
       | IsRejected e => Return None (Some e)
       | IsUnavailable e => Return None (Some (surfaced e))
       end, c', verdictWorld v w).
Proof.
  intros H.
  destruct H as [e Hr | ip mode e Hv Hf | ip m name cidr Hv Hs Hfm | ip m Hv Hs Hn].
  - exists NewIPChecker. apply CheckIP_rejected. exact Hr.
  - exists NewIPChecker. rewrite (CheckIP_validated _ _ _ _ Hv).
    exact (classify_failure ip NewIPChecker w mode e eq_refl Hf).
  - exists (mkIPChecker (Some m)). rewrite (CheckIP_validated _ _ _ _ Hv).
    unfold classify. cbn [meta NewIPChecker].
    rewrite (fetchResult_success _ _ Hs), checkRanges_firstHit.
    apply firstHit_FirstMatch in Hfm. rewrite Hfm. reflexivity.
  - exists (mkIPChecker (Some m)). rewrite (CheckIP_validated _ _ _ _ Hv).
    unfold classify. cbn [meta NewIPChecker].
    rewrite (fetchResult_success _ _ Hs), checkRanges_firstHit.
    apply firstHit_none in Hn. rewrite Hn. reflexivity.
Qed.

Lemma runCommand_verdict (flags : Flags) (s : string) (rest : list string)
    (w : World) (io : Stdio) (v : Verdict) :
  Judged s w v ->
  runCommand flags (s :: rest) w io
  = (Returned (verdictError v), verdictWorld v w,
     match v with
     | IsMember name cidr =>
         if GetBool flags then io
         else mkStdio (stdout io ++ [memberLine s name cidr]) (stderr io)
     | _ => io
     end).
Proof.
  intros H. destruct (CheckIP_fresh_verdict _ _ _ H) as [c' Hc].
  unfold runCommand. rewrite Hc.
  destruct v as [name cidr | | e | e]; cbn [IsGitHubIP negb verdictError];
    try reflexivity.
  destruct (GetBool flags); reflexivity.
Qed.

(** ** [runCommand] *)

(** X2. Given at least one argument, [runCommand] looks at the first
    only and never panics.  The argument has exactly one verdict; the call
    returns nil for a member, the not-GitHub-owned error for a validated
    address no entry matches, and otherwise the error of [CheckIP] as it
    is.  It sends one GET unless validation refuses the argument, writes
    nothing on [stderr], and writes on [stdout] only the line of a member,
    with the address as typed, when the flag [silent] does not hold. *)
Theorem X2_runCommand_by_verdict
    (flags : Flags) (s : string) (rest : list string) (w : World) (io : Stdio) :
  exists v,
    Judged s w v
    /\ (forall v', Judged s w v' -> v' = v)
    /\ runCommand flags (s :: rest) w io
       = (Returned (verdictError v), verdictWorld v w,
          match v with
          | IsMember name cidr =>
              if GetBool flags then io
              else mkStdio (stdout io ++ [memberLine s name cidr]) (stderr io)
          | _ => io
          end).
Proof.
  destruct (Judged_total s w) as [v Hv]. exists v.
  split; [exact Hv |]. split.
  - intros v' Hv'. exact (Judged_functional _ _ _ _ Hv' Hv).
  - exact (runCommand_verdict flags s rest w io v Hv).
Qed.

(** X3. Each invocation of [runCommand] makes its own checker: nothing is
    memoized from one invocation to the next, and two invocations on
    validated addresses send two GETs, whatever the first one fetched. *)
Theorem X3_runCommand_does_not_share_cache
    (f1 f2 : Flags) (s1 s2 : string) (ip1 ip2 : net.IP)
    (w : World) (io : Stdio) :
  Validated s1 ip1 -> Validated s2 ip2 ->
  exists r1 io1 r2 io2,
    runCommand f1 [s1] w io = (r1, afterGet w, io1)
    /\ runCommand f2 [s2] (afterGet w) io1 = (r2, afterGet (afterGet w), io2)
    /\ requests (afterGet (afterGet w))
       = requests w ++ [githubMetaURL w; githubMetaURL w].
Proof.
  intros Hv1 Hv2.
  assert (Hw : forall s ip w0 v,
             Validated s ip -> Judged s w0 v -> verdictWorld v w0 = afterGet w0).
  { intros s ip w0 v Hv Hj. destruct Hj; try reflexivity.
    exfalso. eapply validation_exclusive; eassumption. }
  destruct (Judged_total s1 w) as [v1 Hj1].
  destruct (Judged_total s2 (afterGet w)) as [v2 Hj2].
  do 4 eexists. split; [| split].
  - rewrite (runCommand_verdict f1 s1 [] w io v1 Hj1).
    rewrite (Hw _ _ _ _ Hv1 Hj1). reflexivity.
  - rewrite (runCommand_verdict f2 s2 [] (afterGet w) _ v2 Hj2).
    rewrite (Hw _ _ _ _ Hv2 Hj2). reflexivity.
  - cbn [afterGet requests githubMetaURL]. rewrite <- app_assoc. reflexivity.
Qed.

(** ** [main] *)






(** ** The cache and the fetch *)

(** X6. Once a range set is memoized, a call of [CheckIP] no longer
    depends on the world: whatever the remote end would answer and
    whatever [githubMetaURL] holds, the outcome is the same, and the
    checker and the world are left as they were. *)
Theorem X6_memoized_outcome_ignores_world
    (s : string) (c : IPChecker) (m : GitHubMeta) (w w' : World) :
  meta c = Some m ->
  fst (fst (CheckIP s c w)) = fst (fst (CheckIP s c w'))
  /\ snd (fst (CheckIP s c w)) = c
  /\ snd (CheckIP s c w) = w.
Proof.
  intros Hm. destruct (validation_total s) as [[ip Hv] | [e Hr]].
  - rewrite !(CheckIP_validated _ _ _ _ Hv). unfold classify. rewrite Hm.
    repeat split.
  - rewrite !(CheckIP_rejected _ _ _ _ Hr). repeat split.
Qed.

(** X7. [fetchGitHubMeta] sends exactly one GET, to the URL
    [githubMetaURL] holds, whatever the cache.  When the answer has status
    200 and decodes, it returns nil and the cache becomes the decoded
    range set, nothing of an earlier one surviving; in each of the three
    failure modes it returns that mode's error and leaves the cache, set
    or not, as it was. *)
Theorem X7_fetchGitHubMeta_effects (c : IPChecker) (w : World) :
  snd (fetchGitHubMeta c w) = afterGet w
  /\ requests (afterGet w) = requests w ++ [githubMetaURL w]
  /\ ((exists m,
         FetchSuccess (nextAnswer w) m
         /\ fst (fetchGitHubMeta c w) = (None, mkIPChecker (Some m)))
      \/ (exists mode e,
            FetchFailure (nextAnswer w) mode e
            /\ fst (fetchGitHubMeta c w) = (Some e, c))).
Proof.
  rewrite fetchGitHubMeta_eq.
  destruct (fetchResult (nextAnswer w)) as [m | e] eqn:Hf; cbn [fst snd].
  - apply fetchResult_inl in Hf. repeat split. left. eauto.
  - apply fetchResult_inr in Hf. destruct Hf as [mode Hf].
    repeat split. right. eauto.
Qed.

(** ** Exactly which addresses validation refuses *)

(** X8. Of the texts [a.b.c.d], validation refuses as not routable
    exactly the addresses of the seven classes (10/8, 172.16/12,
    192.168/16, 127/8, 0.0.0.0, 224/4, 255.255.255.255) and accepts every
    other one: link-local, shared and reserved addresses go on to the
    fetch.  No such text is refused as malformed or as not IPv4. *)
Theorem X8_validation_of_dotted_quads
    (a b c d : Z) (cc : IPChecker) (w : World) :
  octet a -> octet b -> octet c -> octet d ->
  (NotRoutableAddr a b c d
   <-> CheckIP (dotted a b c d) cc w
       = (Return None (Some errNotRoutable), cc, w))
  /\ (~ NotRoutableAddr a b c d
      <-> Validated (dotted a b c d) [a; b; c; d])
  /\ fst (fst (CheckIP (dotted a b c d) cc w)) <> Return None (Some errMalformed)
  /\ fst (fst (CheckIP (dotted a b c d) cc w)) <> Return None (Some errNotIPv4).
Proof.
  intros Ha Hb Hc Hd.
  pose proof (ParseIP_dotted a b c d Ha Hb Hc Hd) as Hp.
  pose proof (To4_IPv4 a b c d) as H4.
  pose proof (nonRoutable_iff a b c d Ha Hb) as Hiff.
  assert (Hrej : NotRoutableAddr a b c d ->
                 CheckIP (dotted a b c d) cc w
                 = (Return None (Some errNotRoutable), cc, w)).
  { intros Hn. apply CheckIP_rejected.
    apply (RejNotRoutable _ _ [a; b; c; d] Hp H4). apply Hiff. exact Hn. }
  assert (Hacc : ~ NotRoutableAddr a b c d ->
                 Validated (dotted a b c d) [a; b; c; d]).
  { intros Hn. apply Validated_dotted; assumption. }
  assert (Hval : forall ip, Validated (dotted a b c d) ip ->
                 forall e, fst (fst (CheckIP (dotted a b c d) cc w))
                           = Return None (Some e) ->
                 exists e', e = surfaced e').
  { intros ip Hv e. rewrite (CheckIP_validated _ _ _ _ Hv). unfold classify.
    destruct (meta cc) as [m |];
      [| destruct (fetchResult (nextAnswer w)) as [m | e']]; cbn [fst];
      try (unfold checkRanges; destruct (scanRanges ip (ranges m));
           intros E; discriminate E).
    intros E. injection E as <-. exists e'. reflexivity. }
  destruct (nonRoutable [a; b; c; d]) eqn:Hnr.
  - assert (Hn : NotRoutableAddr a b c d) by (apply Hiff; reflexivity).
    split. { split; [exact Hrej | intros _; exact Hn]. }
    split.
    { split; [intros Hnn; contradiction |].
      intros (ip16 & Hp' & H4' & Hr') _. congruence. }
    rewrite (Hrej Hn). cbn [fst]. split; discriminate.
  - assert (Hn : ~ NotRoutableAddr a b c d).
    { intros Hn. apply Hiff in Hn. discriminate. }
    pose proof (Hacc Hn) as Hv.
    split.
    { split; [intros Hnn; contradiction |].
      intros E. destruct (Hval _ Hv errNotRoutable) as [e' He'].
      - rewrite E. reflexivity.
      - discriminate He'. }
    split. { split; [intros _; exact Hv | intros _; exact Hn]. }
    split; intros E; destruct (Hval _ Hv _ E) as [e' He']; discriminate He'.
Qed.

(** X9. [isBroadcastAddress] holds exactly of the slices whose every byte
    is 255, the empty slice among them. *)
Theorem X9_isBroadcastAddress_all_ones (ip : net.IP) :
  isBroadcastAddress ip = true <-> ip = repeat 255 (List.length ip).
Proof.
  induction ip as [| b rest IH]; cbn [isBroadcastAddress List.length repeat].
  - split; reflexivity.
  - destruct (b =? 255) eqn:E; cbn [negb].
    + apply Z.eqb_eq in E. subst b. rewrite IH. split.
      * intros H. f_equal. exact H.
      * intros H. injection H as H. exact H.
    + apply Z.eqb_neq in E. split; [discriminate |].
      intros H. injection H as H _. contradiction.
Qed.

(** ** The characters of an address *)

Lemma isDigit_addressChar (c : ascii) : isDigit c = true -> addressChar c = true.
Proof.
  unfold isDigit, addressChar, net.hexDigit. intros H. rewrite H. reflexivity.
Qed.

Lemma parseIPv4Fields_loop_chars (s : string) :
  forall prev val pos digLen fields f,
    net.parseIPv4Fields_loop s prev val pos digLen fields = Some f ->
    allChars addressChar s = true.
Proof.
  induction s as [| c rest IH]; intros prev val pos digLen fields f;
    cbn [net.parseIPv4Fields_loop allChars]; [reflexivity |].
  destruct (isDigit c) eqn:Hd.
  - rewrite (isDigit_addressChar _ Hd).
    destruct ((digLen =? 1) && (val =? 0)); [discriminate |].
    destruct (val * 10 + (code c - 48) >? 255); [discriminate |].
    apply IH.
  - destruct (isChar c ".") eqn:Hdot; [| discriminate].
    assert (Hc : addressChar c = true).
    { unfold addressChar. rewrite Hdot. destruct (net.hexDigit c); reflexivity. }
    rewrite Hc.
    destruct (_ || isEmpty rest); [discriminate |].
    destruct (pos =? 3); [discriminate |].
    apply IH.
Qed.

Lemma hexGroup_chars (s : string) :
  forall off acc off' acc' tail,
    net.hexGroup s off acc = Some (off', acc', tail) ->
    allChars addressChar tail = true -> allChars addressChar s = true.
Proof.
  induction s as [| c rest IH]; intros off acc off' acc' tail;
    cbn [net.hexGroup].
  - intros H. injection H as _ _ <-. auto.
  - destruct (net.hexDigit c) as [d |] eqn:Hh.
    + destruct (off >? 3); [discriminate |].
      destruct (Z.shiftl acc 4 + d >? 65535); [discriminate |].
      intros H Ht. cbn [allChars]. unfold addressChar at 1. rewrite Hh.
      exact (IH _ _ _ _ _ H Ht).
    + intros H. injection H as _ _ <-. auto.
Qed.

Lemma colon_addressChar (c : ascii) : isChar c ":" = true -> addressChar c = true.
Proof.
  intros H. unfold addressChar. rewrite H, orb_true_r.
  destruct (net.hexDigit c); reflexivity.
Qed.

Lemma parseIPv6_loop_chars (fuel : nat) :
  forall st st',
    net.parseIPv6_loop fuel st = Some st' -> net.rest6 st' = "" ->
    allChars addressChar (net.rest6 st) = true.
Proof.
  induction fuel as [| fuel IH]; intros [s i ip ellipsis] st';
    cbn [net.parseIPv6_loop net.rest6].
  - intros H. injection H as <-. cbn [net.rest6]. intros ->. reflexivity.
  - destruct (negb (i <? 16)).
    { intros H. injection H as <-. cbn [net.rest6]. intros ->. reflexivity. }
    destruct (net.hexGroup s 0 0) as [[[off acc] tail] |] eqn:Hg; [| discriminate].
    destruct (off =? 0); [discriminate |].
    destruct (match tail with String c _ => isChar c "." | _ => false end).
    + destruct ((ellipsis <? 0) && negb (i =? 12)); [discriminate |].
      destruct (i + 4 >? 16); [discriminate |].
      destruct (net.parseIPv4Fields s) as [f |] eqn:Hf; [| discriminate].
      intros _ _. exact (parseIPv4Fields_loop_chars _ _ _ _ _ _ _ Hf).
    + destruct tail as [| c s1].
      * intros _ _. exact (hexGroup_chars _ _ _ _ _ _ Hg eq_refl).
      * destruct (isChar c ":") eqn:Hc; cbn [negb]; [| discriminate].
        destruct s1 as [| c1 s2]; [discriminate |].
        destruct (isChar c1 ":") eqn:Hc1.
        -- destruct (ellipsis >=? 0); [discriminate |].
           destruct (isEmpty s2) eqn:He.
           ++ intros _ _. apply (hexGroup_chars _ _ _ _ _ _ Hg).
              cbn [allChars]. rewrite (colon_addressChar _ Hc).
              rewrite (colon_addressChar _ Hc1).
              destruct s2; [reflexivity | discriminate He].
           ++ intros H Hr. apply (hexGroup_chars _ _ _ _ _ _ Hg).
              cbn [allChars]. rewrite (colon_addressChar _ Hc).
              rewrite (colon_addressChar _ Hc1).
              exact (IH _ _ H Hr).
        -- intros H Hr. apply (hexGroup_chars _ _ _ _ _ _ Hg).
           cbn [allChars]. rewrite (colon_addressChar _ Hc).
           exact (IH _ _ H Hr).
Qed.

Lemma cut_some (sep : ascii) (s : string) (a z : string) :
  net.cut sep s = Some (a, z) -> s = (a ++ String sep z)%string.
Proof.
  revert a. induction s as [| c rest IH]; intros a; cbn [net.cut]; [discriminate |].
  destruct (isChar c sep) eqn:Hc.
  - intros H. injection H as <- <-. apply Ascii.eqb_eq in Hc. subst. reflexivity.
  - destruct (net.cut sep rest) as [[a0 b0] |]; [| discriminate].
    intros H. injection H as <- <-. cbn [append]. f_equal. apply IH. reflexivity.
Qed.

Lemma parseIPv6_chars (input : string) (a : net.Addr) :
  net.parseIPv6 input = Some a -> net.Zone a = "" ->
  allChars addressChar input = true.
Proof.
  unfold net.parseIPv6.
  destruct (net.cut "%" input) as [[s0 z] |] eqn:Hcut.
  - destruct (isEmpty z) eqn:Hz; [discriminate |].
    intros H Hzone. exfalso.
    assert (Hza : net.Zone a = z).
    { revert H.
      destruct (match s0 with
                | String c0 (String c1 s') =>
                    if isChar c0 ":" && isChar c1 ":" then (s', 0) else (s0, -1)
                | _ => (s0, -1)
                end) as [s1 ellipsis].
      destruct ((ellipsis =? 0) && isEmpty s1);
        [intros H; injection H as <-; reflexivity |].
      destruct (net.parseIPv6_loop 8 (net.mkV6 s1 0 (repeat 0 16) ellipsis))
        as [[s2 i ip e2] |]; [| discriminate].
      destruct (negb (isEmpty s2)); [discriminate |].
      destruct (i <? 16).
      - destruct (e2 <? 0); [discriminate |].
        intros H; injection H as <-; reflexivity.
      - destruct (e2 >=? 0); [discriminate |].
        intros H; injection H as <-; reflexivity. }
    rewrite Hzone in Hza. subst z. discriminate Hz.
  - intros H _. revert H.
    assert (Hstart :
              forall s1 ellipsis,
                match input with
                | String c0 (String c1 s') =>
                    if isChar c0 ":" && isChar c1 ":" then (s', 0) else (input, -1)
                | _ => (input, -1)
                end = (s1, ellipsis) ->
                allChars addressChar s1 = true ->
                allChars addressChar input = true).
    { intros s1 ellipsis. destruct input as [| c0 [| c1 s']].
      - intros E. injection E as <- _. auto.
      - intros E. injection E as <- _. auto.
      - destruct (isChar c0 ":" && isChar c1 ":") eqn:Hcc.
        + intros E. injection E as <- _. intros Hs. cbn [allChars].
          apply andb_prop in Hcc. destruct Hcc as [H0 H1].
          rewrite (colon_addressChar _ H0), (colon_addressChar _ H1). exact Hs.
        + intros E. injection E as <- _. auto. }
    destruct (match input with
              | String c0 (String c1 s') =>
                  if isChar c0 ":" && isChar c1 ":" then (s', 0) else (input, -1)
              | _ => (input, -1)
              end) as [s1 ellipsis] eqn:Hs.
    destruct ((ellipsis =? 0) && isEmpty s1) eqn:Hemp.
    { intros _. apply (Hstart _ _ eq_refl).
      apply andb_prop in Hemp. destruct Hemp as [_ He].
      destruct s1; [reflexivity | discriminate He]. }
    destruct (net.parseIPv6_loop 8 (net.mkV6 s1 0 (repeat 0 16) ellipsis))
      as [[s2 i ip e2] |] eqn:Hloop; [| discriminate].
    destruct (isEmpty s2) eqn:He2; cbn [negb]; [| discriminate].
    intros _. apply (Hstart _ _ eq_refl).
    apply (parseIPv6_loop_chars _ _ _ Hloop). cbn [net.rest6].
    destruct s2; [reflexivity | discriminate He2].
Qed.

Lemma ParseIP_chars (s : string) (ip : net.IP) :
  net.ParseIP s = Some ip -> allChars addressChar s = true.
Proof.
  unfold net.ParseIP. destruct (net.ParseAddr s) as [a |] eqn:Ha; [| discriminate].
  destruct (isEmpty (net.Zone a)) eqn:Hz; [| discriminate]. intros _.
  assert (Hzone : net.Zone a = "") by (destruct (net.Zone a); [reflexivity | discriminate Hz]).
  apply ParseAddr_cases in Ha. destruct Ha as [H | H].
  - unfold net.parseIPv4, net.parseIPv4Fields in H.
    destruct (net.parseIPv4Fields_loop s None 0 0 0 [0; 0; 0; 0]) as [f |] eqn:Hf;
      [| discriminate].
    exact (parseIPv4Fields_loop_chars _ _ _ _ _ _ _ Hf).
  - exact (parseIPv6_chars _ _ H Hzone).
Qed.

(** X10. A text that holds any character other than a hexadecimal digit,
    a dot or a colon (a space, a newline, a slash and prefix length, a
    zone, a host name) is refused as malformed: [CheckIP] returns "invalid
    IP address format" and nothing is fetched. *)
Theorem X10_foreign_character_is_malformed
    (s : string) (c : IPChecker) (w : World) :
  allChars addressChar s = false ->
  CheckIP s c w = (Return None (Some errMalformed), c, w).
Proof.
  intros H. apply CheckIP_rejected. apply RejMalformed.
  destruct (net.ParseIP s) as [ip |] eqn:Hp; [| reflexivity].
  rewrite (ParseIP_chars _ _ Hp) in H. discriminate H.
Qed.

(** ** IPv4 blocks *)

Lemma string_app_assoc (a b c : string) :
  ((a ++ b) ++ c)%string = (a ++ (b ++ c))%string.
Proof. induction a as [| x a IH]; simpl; [| rewrite IH]; reflexivity. Qed.

Lemma cut_slash_digits (a : Z) :
  octet a ->
  forall tail,
    net.cut "/" (itoa a ++ tail)
    = match net.cut "/" tail with
      | Some (p, q) => Some ((itoa a ++ p)%string, q)
      | None => None
      end.
Proof.
  revert a. each_octet ltac:(intros tail; cbn; destruct (net.cut "/" tail) as [[p q] |]; reflexivity).
Qed.

Lemma cut_slash_dotted (x y z t : Z) (bits : string) :
  octet x -> octet y -> octet z -> octet t ->
  net.cut "/" (dotted x y z t ++ String "/" bits)
  = Some (dotted x y z t, bits).
Proof.
  intros Hx Hy Hz Ht. unfold dotted.
  change ("." ++ ?s)%string with (String "." s).
  rewrite !string_app_assoc. cbn [append].
  rewrite !string_app_assoc. cbn [append].
  rewrite !string_app_assoc. cbn [append].
  rewrite (cut_slash_digits x Hx). cbn [net.cut].
  change (isChar "." "/") with false. cbv iota.
  rewrite (cut_slash_digits y Hy). cbn [net.cut].
  change (isChar "." "/") with false. cbv iota.
  rewrite (cut_slash_digits z Hz). cbn [net.cut].
  change (isChar "." "/") with false. cbv iota.
  rewrite (cut_slash_digits t Ht). cbn [net.cut].
  change (isChar "/" "/") with true. cbv iota.
  rewrite append_nil_r. reflexivity.
Qed.

Lemma ParseAddr_dotted (a b c d : Z) :
  octet a -> octet b -> octet c -> octet d ->
  net.ParseAddr (dotted a b c d)
  = Some (net.mkAddr true (net.IPv4 a b c d) "").
Proof.
  intros Ha Hb Hc Hd.
  assert (Hdig : forall x, octet x -> isDigit (lastChar (itoa x)) = true).
  { intros x Hx. pose proof (lastChar_itoa_digit x Hx) as H.
    apply andb_prop in H. apply H. }
  unfold net.ParseAddr, dotted.
  rewrite <- (append_nil_r (itoa d)).
  change ("." ++ ?s)%string with (String "." s).
  rewrite (ParseAddr_scan_digits a Ha).
  unfold net.parseIPv4, net.parseIPv4Fields.
  rewrite (parseIPv4Fields_digits a Ha).
  rewrite parseIPv4Fields_dot
    by (auto using isEmpty_itoa_app; reflexivity).
  change ("." ++ ?s)%string with (String "." s).
  rewrite (parseIPv4Fields_digits b Hb).
  rewrite parseIPv4Fields_dot
    by (auto using isEmpty_itoa_app; reflexivity).
  change ("." ++ ?s)%string with (String "." s).
  rewrite (parseIPv4Fields_digits c Hc).
  rewrite parseIPv4Fields_dot
    by (auto using isEmpty_itoa_app; reflexivity).
  rewrite (parseIPv4Fields_digits d Hd).
  reflexivity.
Qed.

Lemma dtoi_itoa (n : Z) :
  octet n -> net.dtoi (itoa n) = (n, strlen (itoa n), true).
Proof. revert n. each_octet ltac:(reflexivity). Qed.

Lemma CIDRMask_loop_length (l : nat) :
  forall n, List.length (net.CIDRMask_loop l n) = l.
Proof.
  induction l as [| l IH]; intros n; cbn [net.CIDRMask_loop]; [reflexivity |].
  destruct (n >=? 8); cbn [List.length]; rewrite IH; reflexivity.
Qed.

Lemma CIDRMask_32 (n : Z) :
  0 <= n <= 32 -> net.CIDRMask n 32 = net.CIDRMask_loop 4 n.
Proof.
  intros H. unfold net.CIDRMask.
  change (negb (32 =? 8 * net.IPv4len) && negb (32 =? 8 * net.IPv6len)) with false.
  cbv iota.
  replace ((n <? 0) || (n >? 32)) with false; [reflexivity |].
  symmetry. apply orb_false_iff. split; [apply Z.ltb_ge; lia |].
  rewrite Z.gtb_ltb. apply Z.ltb_ge. lia.
Qed.

Lemma ParseCIDR_cidrText (x y z t n : Z) :
  octet x -> octet y -> octet z -> octet t -> 0 <= n <= 32 ->
  net.ParseCIDR (cidrText x y z t n)
  = Some (net.IPv4 x y z t,
          net.mkIPNet (net.andBytes [x; y; z; t] (net.CIDRMask_loop 4 n))
            (net.CIDRMask_loop 4 n)).
Proof.
  intros Hx Hy Hz Ht Hn. unfold net.ParseCIDR, cidrText.
  change ("/" ++ ?s)%string with (String "/" s).
  rewrite (cut_slash_dotted x y z t _ Hx Hy Hz Ht).
  rewrite (ParseAddr_dotted x y z t Hx Hy Hz Ht).
  cbn [net.Zone isEmpty negb net.BitLen net.Is4 net.As16].
  rewrite dtoi_itoa by (unfold octet; lia).
  rewrite Z.eqb_refl. cbn [negb orb].
  replace (n <? 0) with false by (symmetry; apply Z.ltb_ge; lia).
  replace (n >? 32) with false
    by (symmetry; rewrite Z.gtb_ltb; apply Z.ltb_ge; lia).
  cbn [orb]. rewrite (CIDRMask_32 n Hn).
  pose proof (CIDRMask_loop_length 4 n) as Hlen.
  destruct (net.CIDRMask_loop 4 n) as [| m0 [| m1 [| m2 [| m3 [| m4 m]]]]];
    try discriminate Hlen.
  reflexivity.
Qed.

Lemma Contains_four (x y z t a b c d m0 m1 m2 m3 : Z) :
  net.Contains
    (net.mkIPNet (net.andBytes [x; y; z; t] [m0; m1; m2; m3]) [m0; m1; m2; m3])
    [a; b; c; d]
  = (Z.land x m0 =? Z.land a m0) && ((Z.land y m1 =? Z.land b m1)
    && ((Z.land z m2 =? Z.land c m2) && ((Z.land t m3 =? Z.land d m3) && true))).
Proof.
  transitivity
    ((Z.land (Z.land x m0) m0 =? Z.land a m0)
     && ((Z.land (Z.land y m1) m1 =? Z.land b m1)
     && ((Z.land (Z.land z m2) m2 =? Z.land c m2)
     && ((Z.land (Z.land t m3) m3 =? Z.land d m3) && true)))).
  - reflexivity.
  - rewrite <- !Z.land_assoc, !Z.land_diag. reflexivity.
Qed.

Lemma land_255 (v : Z) : octet v -> Z.land v 255 = v.
Proof.
  intros H. change 255 with (Z.ones 8). rewrite Z.land_ones by lia.
  apply Z.mod_small. exact H.
Qed.

Ltac land_by_octets k :=
  let v := fresh "v" in
  intros v Hv; apply Z.eqb_eq; revert v Hv;
  apply (octet_forallb (fun v => Z.land v (256 - k) =? k * (v / k)));
  vm_compute; reflexivity.

Lemma land_254 : forall v, octet v -> Z.land v 254 = 2 * (v / 2).
Proof. land_by_octets 2. Qed.
Lemma land_252 : forall v, octet v -> Z.land v 252 = 4 * (v / 4).
Proof. land_by_octets 4. Qed.
Lemma land_248 : forall v, octet v -> Z.land v 248 = 8 * (v / 8).
Proof. land_by_octets 8. Qed.
Lemma land_240 : forall v, octet v -> Z.land v 240 = 16 * (v / 16).
Proof. land_by_octets 16. Qed.
Lemma land_224 : forall v, octet v -> Z.land v 224 = 32 * (v / 32).
Proof. land_by_octets 32. Qed.
Lemma land_192 : forall v, octet v -> Z.land v 192 = 64 * (v / 64).
Proof. land_by_octets 64. Qed.
Lemma land_128 : forall v, octet v -> Z.land v 128 = 128 * (v / 128).
Proof. land_by_octets 128. Qed.

Lemma below_cases (N : nat) (P : Z -> Prop) :
  (forall k, (k < N)%nat -> P (Z.of_nat k)) ->
  forall n, 0 <= n < Z.of_nat N -> P n.
Proof.
  intros H n Hn. rewrite <- (Z2Nat.id n) by lia. apply H. lia.
Qed.

Ltac land_to_div :=
  rewrite ?land_255, ?land_254, ?land_252, ?land_248, ?land_240, ?land_224,
    ?land_192, ?land_128, ?Z.land_0_r by assumption.

Ltac prefix_case x y z t a b c d k :=
  let m := eval vm_compute in (net.CIDRMask_loop 4 (Z.of_nat k)) in
  change (net.CIDRMask_loop 4 (Z.of_nat k)) with m;
  let p := eval vm_compute in (2 ^ (32 - Z.of_nat k)) in
  change (2 ^ (32 - Z.of_nat k)) with p;
  rewrite (Contains_four x y z t a b c d);
  land_to_div;
  rewrite !andb_true_iff, !Z.eqb_eq;
  unfold addrValue, octet in *;
  split; intros; Z.div_mod_to_equations; lia.

Lemma Contains_prefix (x y z t a b c d n : Z) :
  octet x -> octet y -> octet z -> octet t ->
  octet a -> octet b -> octet c -> octet d ->
  0 <= n <= 32 ->
  net.Contains
    (net.mkIPNet (net.andBytes [x; y; z; t] (net.CIDRMask_loop 4 n))
       (net.CIDRMask_loop 4 n)) [a; b; c; d] = true
  <-> addrValue a b c d / 2 ^ (32 - n) = addrValue x y z t / 2 ^ (32 - n).
Proof.
  intros Hx Hy Hz Ht Ha Hb Hc Hd Hn.
  assert (Hn' : 0 <= n < Z.of_nat 33) by lia. revert n Hn' Hn.
  match goal with
  | |- forall n, _ -> @?P n => apply (below_cases 33 P)
  end.
  intros k Hk _.
  do 33 (destruct k as [| k];
         [prefix_case x y z t a b c d
            ltac:(match goal with |- context [net.CIDRMask_loop 4 (Z.of_nat ?k0)] => k0 end) |]).
  exfalso. lia.
Qed.

Lemma ParseCIDR_cidrText_long (x y z t n : Z) :
  octet x -> octet y -> octet z -> octet t -> octet n -> 32 < n ->
  net.ParseCIDR (cidrText x y z t n) = None.
Proof.
  intros Hx Hy Hz Ht Hn Hlong. unfold net.ParseCIDR, cidrText.
  change ("/" ++ ?s)%string with (String "/" s).
  rewrite (cut_slash_dotted x y z t _ Hx Hy Hz Ht).
  rewrite (ParseAddr_dotted x y z t Hx Hy Hz Ht).
  cbn [net.Zone isEmpty negb net.BitLen net.Is4 net.As16].
  rewrite (dtoi_itoa n Hn).
  replace (n >? 32) with true by (symmetry; rewrite Z.gtb_ltb; apply Z.ltb_lt; lia).
  rewrite !orb_true_r. reflexivity.
Qed.

(** X11. An entry [x.y.z.t/n] with [n] up to 32 matches the address
    [a.b.c.d] exactly when the two 32-bit values agree on their first [n]
    bits: the bits of the entry after the prefix are ignored, [/0] matches
    every address and [/32] one address.  With [n] beyond 32 the entry
    does not parse, and is skipped. *)
Theorem X11_ipv4_entry_matches_by_prefix
    (x y z t a b c d n : Z) :
  octet x -> octet y -> octet z -> octet t ->
  octet a -> octet b -> octet c -> octet d ->
  octet n ->
  (n <= 32 ->
   (matches [a; b; c; d] (cidrText x y z t n) = true
    <-> addrValue a b c d / 2 ^ (32 - n) = addrValue x y z t / 2 ^ (32 - n)))
  /\ (32 < n ->
      parseable (cidrText x y z t n) = false
      /\ matches [a; b; c; d] (cidrText x y z t n) = false).
Proof.
  intros Hx Hy Hz Ht Ha Hb Hc Hd Hn. split.
  - intros Hle. unfold matches.
    rewrite (ParseCIDR_cidrText x y z t n Hx Hy Hz Ht)
      by (unfold octet in Hn; lia).
    apply Contains_prefix; try assumption. unfold octet in Hn. lia.
  - intros Hlong. unfold parseable, matches.
    rewrite (ParseCIDR_cidrText_long x y z t n Hx Hy Hz Ht Hn Hlong).
    split; reflexivity.
Qed.

(** ** IPv6 blocks *)

Lemma addressChar_not_slash (c : ascii) :
  addressChar c = true -> isChar c "/" = false.
Proof. destruct c as [[] [] [] [] [] [] [] []]; vm_compute; congruence. Qed.

Lemma addressChar_not_percent (c : ascii) :
  addressChar c = true -> isChar c "%" = false.
Proof. destruct c as [[] [] [] [] [] [] [] []]; vm_compute; congruence. Qed.

Lemma cut_absent (sep : ascii) (s : string) :
  (forall c, addressChar c = true -> isChar c sep = false) ->
  allChars addressChar s = true ->
  net.cut sep s = None
  /\ forall z, net.cut sep (s ++ String sep z) = Some (s, z).
Proof.
  intros Hsep. induction s as [| c rest IH]; cbn [allChars append net.cut].
  - intros _. split; [reflexivity |]. intros z.
    rewrite (proj2 (Ascii.eqb_eq sep sep) eq_refl : isChar sep sep = true).
    reflexivity.
  - intros H. apply andb_prop in H. destruct H as [Hc Hr].
    rewrite (Hsep _ Hc). destruct (IH Hr) as [IH1 IH2]. rewrite IH1.
    split; [reflexivity |]. intros z. rewrite IH2. reflexivity.
Qed.

Lemma ParseAddr_chars (s : string) (a : net.Addr) :
  net.ParseAddr s = Some a -> net.Zone a = "" ->
  allChars addressChar s = true.
Proof.
  intros Ha Hz. apply (ParseIP_chars s (net.As16 a)).
  unfold net.ParseIP. rewrite Ha, Hz. reflexivity.
Qed.

Lemma CIDRMask_128 (n : Z) :
  0 <= n <= 128 -> net.CIDRMask n 128 = net.CIDRMask_loop 16 n.
Proof.
  intros H. unfold net.CIDRMask.
  change (negb (128 =? 8 * net.IPv4len) && negb (128 =? 8 * net.IPv6len))
    with false.
  cbv iota.
  replace ((n <? 0) || (n >? 128)) with false; [reflexivity |].
  symmetry. apply orb_false_iff. split; [apply Z.ltb_ge; lia |].
  rewrite Z.gtb_ltb. apply Z.ltb_ge. lia.
Qed.

Lemma andBytes_length (ip m : list Z) :
  List.length ip = List.length m ->
  List.length (net.andBytes ip m) = List.length ip.
Proof.
  revert m. induction ip as [| x ip IH]; intros [| y m] H;
    cbn [net.andBytes List.length] in *; try discriminate; [reflexivity |].
  f_equal. apply IH. lia.
Qed.

Lemma MaskIP_sixteen (ip m : list Z) :
  List.length ip = 16%nat -> List.length m = 16%nat ->
  net.MaskIP ip m = net.andBytes ip m.
Proof.
  intros Hi Hm. unfold net.MaskIP, len. rewrite Hi, Hm.
  change (Z.of_nat 16 =? net.IPv6len) with true.
  change (Z.of_nat 16 =? net.IPv4len) with false.
  cbn [andb]. rewrite Hm.
  change (Z.of_nat 16 =? net.IPv4len) with false.
  cbn [andb]. rewrite Hi, Z.eqb_refl. reflexivity.
Qed.

(** In a 128-bit mask whose twelfth byte is odd, the first twelve bytes
    are all ones. *)
Lemma mask128_twelve (n : Z) :
  0 <= n <= 128 ->
  Z.land (nth 11 (net.CIDRMask_loop 16 n) 0) 1 = 1 ->
  firstn 12 (net.CIDRMask_loop 16 n) = repeat 255 12.
Proof.
  intros Hn. assert (Hn' : 0 <= n < Z.of_nat 129) by lia. clear Hn.
  revert n Hn'.
  apply (below_cases 129
           (fun n => Z.land (nth 11 (net.CIDRMask_loop 16 n) 0) 1 = 1 ->
                     firstn 12 (net.CIDRMask_loop 16 n) = repeat 255 12)).
  intros k Hk.
  assert (E : forallb
                (fun k =>
                   implb (Z.land (nth 11 (net.CIDRMask_loop 16 (Z.of_nat k)) 0) 1 =? 1)
                     (bytesEqual (firstn 12 (net.CIDRMask_loop 16 (Z.of_nat k)))
                        (repeat 255 12)))
                (seq 0 129) = true) by (vm_compute; reflexivity).
  rewrite forallb_forall in E. specialize (E k).
  intros H. apply bytesEqual_eq.
  assert (Hin : In k (seq 0 129)) by (apply in_seq; lia).
  specialize (E Hin). apply Z.eqb_eq in H. rewrite H in E. exact E.
Qed.

Lemma land_255_odd (x m : Z) : Z.land x m = 255 -> Z.land m 1 = 1.
Proof.
  intros H.
  assert (E : Z.land (Z.land x m) 1 = 1) by (rewrite H; reflexivity).
  rewrite <- Z.land_assoc in E.
  change 1 with (Z.ones 1) in *. rewrite Z.land_ones in * by lia.
  change (2 ^ 1) with 2 in *.
  destruct (Z.eq_dec (m mod 2) 1) as [Hm | Hm]; [exact Hm |].
  assert (H0 : m mod 2 = 0) by (pose proof (Z.mod_pos_bound m 2); lia).
  rewrite H0, Z.land_0_r in E. discriminate E.
Qed.

Lemma Contains_v6 (ip16 ip : net.IP) (n : Z) :
  wf 16 ip16 -> firstn 12 ip16 <> net.v4InV6Prefix ->
  0 <= n <= 128 -> List.length ip = 4%nat ->
  net.Contains
    (net.mkIPNet (net.andBytes ip16 (net.CIDRMask_loop 16 n))
       (net.CIDRMask_loop 16 n)) ip = false.
Proof.
  intros [Hlen Hoct] Hpre Hn Hip.
  pose proof (CIDRMask_loop_length 16 n) as HM.
  pose proof (mask128_twelve n Hn) as Htw.
  set (M := net.CIDRMask_loop 16 n) in *.
  assert (HN : List.length (net.andBytes ip16 M) = 16%nat).
  { rewrite andBytes_length; congruence. }
  unfold net.Contains, net.networkNumberAndMask. cbn [net.NetIP net.Mask].
  rewrite (To4_sixteen _ HN).
  destruct (bytesEqual (firstn 12 (net.andBytes ip16 M)) net.v4InV6Prefix) eqn:E.
  - exfalso. apply Hpre. apply bytesEqual_eq in E.
    sixteen ip16 Hlen. sixteen M HM.
    cbn [net.andBytes firstn net.v4InV6Prefix] in E.
    injection E as E0 E1 E2 E3 E4 E5 E6 E7 E8 E9 E10 E11.
    specialize (Htw (land_255_odd _ _ E11)).
    cbn [firstn repeat] in Htw.
    injection Htw as -> -> -> -> -> -> -> -> -> -> -> ->.
    repeat match goal with
           | H : Forall octet (_ :: _) |- _ => inversion H; subst; clear H
           end.
    rewrite land_255 in * by assumption. subst.
    reflexivity.
  - assert (H4 : net.To4 ip = Some ip)
      by (unfold net.To4, len; rewrite Hip; reflexivity).
    rewrite H4. unfold len. rewrite HN.
    change (Z.of_nat 16 =? net.IPv6len) with true. cbn [negb]. cbv iota.
    rewrite HM.
    change (Z.of_nat 16 =? net.IPv4len) with false.
    change (Z.of_nat 16 =? net.IPv6len) with true. cbv iota.
    rewrite HN. change (Z.of_nat 16 =? net.IPv4len) with false.
    cbv iota beta zeta. rewrite Hip, HN. reflexivity.
Qed.

(** X12. An entry written with an IPv6 address that is not IPv4-mapped
    matches no IPv4 address, whatever its prefix length: the IPv6 blocks
    that stand in a range set beside the IPv4 ones never make a validated
    address a member. *)
Theorem X12_ipv6_entry_never_matches
    (addr bits : string) (ip16 ip : net.IP) :
  IPv6Literal addr ip16 -> firstn 12 ip16 <> net.v4InV6Prefix ->
  List.length ip = 4%nat ->
  matches ip (addr ++ "/" ++ bits) = false.
Proof.
  intros (a & Ha & H6 & Hz & Has) Hpre Hip.
  pose proof (ParseAddr_wf _ _ Ha) as Hwf. rewrite Has in Hwf.
  unfold matches, net.ParseCIDR.
  change ("/" ++ bits)%string with (String "/" bits).
  rewrite (proj2 (cut_absent "/" addr addressChar_not_slash
                    (ParseAddr_chars _ _ Ha Hz)) bits).
  rewrite Ha, Hz. cbn [isEmpty negb]. unfold net.BitLen. rewrite H6, Has.
  destruct (net.dtoi bits) as [[n i] ok].
  destruct (negb ok || negb (i =? strlen bits) || (n <? 0) || (n >? 128)) eqn:Hc;
    [reflexivity |].
  apply orb_false_iff in Hc. destruct Hc as [Hc Hhi].
  apply orb_false_iff in Hc. destruct Hc as [_ Hlo].
  apply Z.ltb_ge in Hlo. rewrite Z.gtb_ltb in Hhi. apply Z.ltb_ge in Hhi.
  rewrite (CIDRMask_128 n) by lia.
  rewrite MaskIP_sixteen
    by (try apply Hwf; apply CIDRMask_loop_length).
  apply Contains_v6; try assumption. lia.
Qed.

(** ** IPv4-mapped text *)

Lemma parseIPv4Fields_dotted (a b c d : Z) :
  octet a -> octet b -> octet c -> octet d ->
  net.parseIPv4Fields (dotted a b c d) = Some [a; b; c; d].
Proof.
  intros Ha Hb Hc Hd.
  assert (Hdig : forall x, octet x -> isDigit (lastChar (itoa x)) = true).
  { intros x Hx. pose proof (lastChar_itoa_digit x Hx) as H.
    apply andb_prop in H. apply H. }
  unfold net.parseIPv4Fields, dotted.
  rewrite <- (append_nil_r (itoa d)).
  change ("." ++ ?s)%string with (String "." s).
  rewrite (parseIPv4Fields_digits a Ha).
  rewrite parseIPv4Fields_dot
    by (auto using isEmpty_itoa_app; reflexivity).
  change ("." ++ ?s)%string with (String "." s).
  rewrite (parseIPv4Fields_digits b Hb).
  rewrite parseIPv4Fields_dot
    by (auto using isEmpty_itoa_app; reflexivity).
  change ("." ++ ?s)%string with (String "." s).
  rewrite (parseIPv4Fields_digits c Hc).
  rewrite parseIPv4Fields_dot
    by (auto using isEmpty_itoa_app; reflexivity).
  rewrite (parseIPv4Fields_digits d Hd).
  reflexivity.
Qed.

Lemma hexGroup_octet (a : Z) :
  octet a ->
  forall tail,
    match net.hexGroup (itoa a ++ String "." tail) 0 0 with
    | Some (off, acc, tl) => (off =? 0) = false /\ tl = String "." tail
    | None => False
    end.
Proof.
  revert a. each_octet ltac:(intros tail; cbn; split; reflexivity).
Qed.

Lemma itoa_first_digit (a : Z) :
  octet a ->
  match itoa a with
  | String c _ => isChar c ":" = false
  | EmptyString => False
  end.
Proof.
  intros Ha.
  assert (E : match itoa a with
              | String c _ => negb (isChar c ":")
              | EmptyString => false
              end = true).
  { revert a Ha.
    apply (octet_forallb
             (fun a => match itoa a with
                       | String c _ => negb (isChar c ":")
                       | EmptyString => false
                       end)).
    vm_compute. reflexivity. }
  destruct (itoa a) as [| c r]; [discriminate E |].
  destruct (isChar c ":"); [discriminate E | reflexivity].
Qed.

Lemma ParseIP_mapped (a b c d : Z) :
  octet a -> octet b -> octet c -> octet d ->
  net.ParseIP (mappedText a b c d) = Some (net.IPv4 a b c d).
Proof.
  intros Ha Hb Hc Hd.
  pose proof (ParseAddr_chars _ _ (ParseAddr_dotted a b c d Ha Hb Hc Hd) eq_refl)
    as Hchars.
  pose proof (proj1 (cut_absent "%" _ addressChar_not_percent Hchars)) as Hcut.
  pose proof (parseIPv4Fields_dotted a b c d Ha Hb Hc Hd) as Hf.
  pose proof (itoa_first_digit a Ha) as Hfirst.
  pose proof (hexGroup_octet a Ha) as Hhex.
  unfold net.ParseIP, net.ParseAddr, mappedText.
  cbn [append net.ParseAddr_scan].
  change (isChar ":" ".") with false. change (isChar ":" ":") with true.
  cbv iota. unfold net.parseIPv6.
  cbn [net.cut]. 
  change (isChar ":" "%") with false. change (isChar "f" "%") with false.
  cbv iota. rewrite Hcut.
  change (isChar ":" ":" && isChar ":" ":") with true. cbv iota.
  cbn [Z.eqb isEmpty andb].
  unfold dotted in *.
  change ("." ++ ?s)%string with (String "." s) in *.
  destruct (itoa a) as [| c0 r0] eqn:Hia; [contradiction |].
  cbn [append] in *.
  (* first group: ffff *)
  cbn [net.parseIPv6_loop]. change (negb (0 <? 16)) with false. cbv iota.
  cbn [net.hexGroup]. 
  change (net.hexDigit "f") with (Some 15). cbv iota.
  change (net.hexDigit ":") with (@None Z). cbv iota.
  cbn -[net.parseIPv6_loop update net.expand_loop net.clear_loop
        net.hexGroup net.parseIPv4Fields].
  rewrite Hfirst.
  specialize (Hhex (itoa b ++ String "." (itoa c ++ String "." (itoa d)))%string).
  destruct (net.hexGroup
              (String c0
                 (r0 ++ String "."
                    (itoa b ++ String "." (itoa c ++ String "." (itoa d)))))
              0 0) as [[[off acc] tl] |]; [| contradiction].
  destruct Hhex as [Hoff ->]. rewrite Hoff.
  change (isChar "." ".") with true. cbv iota. rewrite Hf.
  reflexivity.
Qed.

Lemma CheckIP_same_parse (s s' : string) (c : IPChecker) (w : World) :
  net.ParseIP s = net.ParseIP s' -> CheckIP s c w = CheckIP s' c w.
Proof. intros H. unfold CheckIP. rewrite H. reflexivity. Qed.

(** X13. The IPv4-mapped text [::ffff:a.b.c.d] is handled exactly as the
    text [a.b.c.d]: the same outcome, refusal as not routable included,
    and the same effect on the cache and on the network. *)
Theorem X13_mapped_text_is_the_ipv4_address
    (a b c d : Z) (cc : IPChecker) (w : World) :
  octet a -> octet b -> octet c -> octet d ->
  IPv6Literal (mappedText a b c d) (net.IPv4 a b c d)
  /\ CheckIP (mappedText a b c d) cc w = CheckIP (dotted a b c d) cc w.
Proof.
  intros Ha Hb Hc Hd.
  pose proof (ParseIP_mapped a b c d Ha Hb Hc Hd) as Hp. split.
  - unfold net.ParseIP in Hp.
    destruct (net.ParseAddr (mappedText a b c d)) as [x |] eqn:Hx;
      [| discriminate Hp].
    destruct (isEmpty (net.Zone x)) eqn:Hz; [| discriminate Hp].
    injection Hp as Hp. exists x. split; [exact Hx |].
    split; [| split].
    + apply ParseAddr_cases in Hx. destruct Hx as [Hx | Hx].
      * exfalso. unfold net.parseIPv4, net.parseIPv4Fields, mappedText in Hx.
        cbn [append net.parseIPv4Fields_loop] in Hx.
        change (isDigit ":") with false in Hx.
        change (isChar ":" ".") with false in Hx. discriminate Hx.
      * apply (parseIPv6_wf _ _ Hx).
    + destruct (net.Zone x); [reflexivity | discriminate Hz].
    + exact Hp.
  - apply CheckIP_same_parse. rewrite Hp.
    symmetry. apply ParseIP_dotted; assumption.
Qed.


(** ** Bodies the decoder accepts *)





(** ** Instances of the further properties *)

Ltac octets := unfold octet; lia.

Lemma X3_witness :
  Validated "192.30.252.1" [192; 30; 252; 1]
  /\ Validated "8.8.8.8" [8; 8; 8; 8]
  /\ exists r1 io1 r2 io2,
       runCommand (mkFlags None) ["192.30.252.1"] successWorld (mkStdio [] [])
       = (r1, afterGet successWorld, io1)
       /\ runCommand (mkFlags None) ["8.8.8.8"] (afterGet successWorld) io1
          = (r2, afterGet (afterGet successWorld), io2)
       /\ requests (afterGet (afterGet successWorld))
          = requests successWorld
            ++ [githubMetaURL successWorld; githubMetaURL successWorld].
Proof.
  assert (Hv1 : Validated "192.30.252.1" [192; 30; 252; 1])
    by validated_as (net.IPv4 192 30 252 1).
  assert (Hv2 : Validated "8.8.8.8" [8; 8; 8; 8])
    by validated_as (net.IPv4 8 8 8 8).
  split; [exact Hv1 |]. split; [exact Hv2 |].
  exact (X3_runCommand_does_not_share_cache
           (mkFlags None) (mkFlags None) _ _ _ _ successWorld (mkStdio [] [])
           Hv1 Hv2).
Defined.



Lemma X6_witness :
  meta (mkIPChecker (Some successMeta)) = Some successMeta
  /\ fst (fst (CheckIP "192.30.252.1" (mkIPChecker (Some successMeta)) failingWorld))
     = fst (fst (CheckIP "192.30.252.1" (mkIPChecker (Some successMeta)) successWorld))
  /\ snd (CheckIP "192.30.252.1" (mkIPChecker (Some successMeta)) failingWorld)
     = failingWorld.
Proof.
  split; [reflexivity |].
  destruct (X6_memoized_outcome_ignores_world
              "192.30.252.1" (mkIPChecker (Some successMeta)) successMeta
              failingWorld successWorld eq_refl) as (H1 & _ & H3).
  split; [exact H1 | exact H3].
Defined.

Lemma X8_witness :
  dotted 169 254 1 1 = "169.254.1.1"
  /\ Validated "169.254.1.1" [169; 254; 1; 1]
  /\ (NotRoutableAddr 172 16 0 1
      /\ CheckIP "172.16.0.1" NewIPChecker successWorld
         = (Return None (Some errNotRoutable), NewIPChecker, successWorld)).
Proof.
  split; [reflexivity |]. split.
  - apply (proj1 (proj1 (proj2 (X8_validation_of_dotted_quads
                                  169 254 1 1 NewIPChecker successWorld
                                  ltac:(octets) ltac:(octets) ltac:(octets)
                                  ltac:(octets))))).
    intros H. inversion H; lia.
  - assert (Hn : NotRoutableAddr 172 16 0 1) by (apply InPrivate172; lia).
    split; [exact Hn |].
    exact (proj1 (proj1 (X8_validation_of_dotted_quads
                           172 16 0 1 NewIPChecker successWorld
                           ltac:(octets) ltac:(octets) ltac:(octets)
                           ltac:(octets))) Hn).
Defined.

Lemma X10_witness :
  allChars addressChar "192.30.252.1/22" = false
  /\ CheckIP "192.30.252.1/22" NewIPChecker successWorld
     = (Return None (Some errMalformed), NewIPChecker, successWorld).
Proof.
  split; [reflexivity |].
  exact (X10_foreign_character_is_malformed
           "192.30.252.1/22" NewIPChecker successWorld eq_refl).
Defined.

Lemma X11_witness :
  cidrText 192 30 252 0 22 = "192.30.252.0/22"
  /\ matches [192; 30; 255; 255] "192.30.252.0/22" = true
  /\ parseable (cidrText 192 30 252 0 33) = false.
Proof.
  split; [reflexivity |]. split.
  - apply (proj1 (X11_ipv4_entry_matches_by_prefix
                    192 30 252 0 192 30 255 255 22
                    ltac:(octets) ltac:(octets) ltac:(octets) ltac:(octets)
                    ltac:(octets) ltac:(octets) ltac:(octets) ltac:(octets)
                    ltac:(octets)) ltac:(lia)).
    reflexivity.
  - apply (proj2 (X11_ipv4_entry_matches_by_prefix
                    192 30 252 0 192 30 255 255 33
                    ltac:(octets) ltac:(octets) ltac:(octets) ltac:(octets)
                    ltac:(octets) ltac:(octets) ltac:(octets) ltac:(octets)
                    ltac:(octets)) ltac:(lia)).
Defined.

Lemma X12_witness :
  IPv6Literal "2a0a:a440::" [42; 10; 164; 64; 0; 0; 0; 0; 0; 0; 0; 0; 0; 0; 0; 0]
  /\ matches [192; 30; 252; 1] "2a0a:a440::/29" = false
  /\ matches [192; 30; 252; 1] "::/0" = false.
Proof.
  assert (H1 : IPv6Literal "2a0a:a440::"
                 [42; 10; 164; 64; 0; 0; 0; 0; 0; 0; 0; 0; 0; 0; 0; 0]).
  { eexists. repeat split; by_computation. }
  assert (H2 : IPv6Literal "::" (repeat 0 16)).
  { eexists. repeat split; by_computation. }
  split; [exact H1 |]. split.
  - apply (X12_ipv6_entry_never_matches "2a0a:a440::" "29" _ [192; 30; 252; 1] H1);
      [discriminate | reflexivity].
  - apply (X12_ipv6_entry_never_matches "::" "0" _ [192; 30; 252; 1] H2);
      [discriminate | reflexivity].
Defined.

Lemma X13_witness :
  mappedText 192 30 252 1 = "::ffff:192.30.252.1"
  /\ CheckIP "::ffff:192.30.252.1" NewIPChecker successWorld
     = CheckIP "192.30.252.1" NewIPChecker successWorld.
Proof.
  split; [reflexivity |].
  exact (proj2 (X13_mapped_text_is_the_ipv4_address
                  192 30 252 1 NewIPChecker successWorld
                  ltac:(octets) ltac:(octets) ltac:(octets) ltac:(octets))).
Defined.

